(** * peopletransformdata: flattening JSON documents into Parquet rows

    A shallow embedding of [src/main.py] and of the claims its
    specification makes about it.

    - JSON values are the values Python's [json.loads] returns; an object
      is a [dict], which keeps its keys in insertion order, so a dict is
      an association list kept free of duplicate keys by [setitem].
    - A JSON text is represented by what [json.loads] makes of it (type
      [text]); [json.dumps] followed by [json.loads] is the identity on
      the values [json.loads] returns.
    - Code that prints, raises, catches and talks to MinIO lives in a
      state-and-exception monad [M] over the object store and the lines
      printed so far. The MinIO client and the Parquet encoder are
      parameters of the development. *)

From Stdlib Require Import List String Ascii ZArith Bool Arith Lia.
From Stdlib Require Import DecimalString DecimalNat.
Import ListNotations.

Local Open Scope string_scope.
Local Open Scope list_scope.

(** ** JSON values *)

Unset Elimination Schemes.

(** What [json.loads] returns: [None], [bool], a number, [str], [list],
    [dict]. Numbers are carried around untouched by the program; they are
    integers here. *)
Inductive json : Type :=
| JNull
| JBool (b : bool)
| JNum (n : Z)
| JStr (s : string)
| JArr (items : list json)
| JObj (fields : list (string * json)).

Set Elimination Schemes.

Section JsonInduction.
Variable P : json -> Prop.
Hypothesis Hnull : P JNull.
Hypothesis Hbool : forall b, P (JBool b).
Hypothesis Hnum : forall n, P (JNum n).
Hypothesis Hstr : forall s, P (JStr s).
Hypothesis Harr : forall items, Forall P items -> P (JArr items).
Hypothesis Hobj :
  forall fields, Forall (fun kv => P (snd kv)) fields -> P (JObj fields).

Fixpoint json_induction (v : json) : P v :=
  match v with
  | JNull => Hnull
  | JBool b => Hbool b
  | JNum n => Hnum n
  | JStr s => Hstr s
  | JArr items =>
      Harr items
        ((fix all (l : list json) : Forall P l :=
            match l with
            | [] => Forall_nil P
            | x :: r => Forall_cons x (json_induction x) (all r)
            end) items)
  | JObj fields =>
      Hobj fields
        ((fix all (l : list (string * json))
            : Forall (fun kv => P (snd kv)) l :=
            match l with
            | [] => Forall_nil _
            | kv :: r =>
                Forall_cons (P := fun kv => P (snd kv)) kv
                  (json_induction (snd kv)) (all r)
            end) fields)
  end.
End JsonInduction.

(** [isinstance(obj, dict)] and [isinstance(obj, list)] both fail. *)
Definition is_scalar (v : json) : bool :=
  match v with
  | JArr _ | JObj _ => false
  | _ => true
  end.

(** ** Python dictionaries *)

Module Dict.

Definition dict (V : Type) : Type := list (string * V).

Definition keys {V} (d : dict V) : list string := map fst d.

(** [d.get(k)] *)
Fixpoint getitem {V} (d : dict V) (k : string) : option V :=
  match d with
  | [] => None
  | (k', v) :: r => if String.eqb k' k then Some v else getitem r k
  end.

(** [d[k] = v]: an existing key keeps its place, a new key goes last. *)
Fixpoint setitem {V} (d : dict V) (k : string) (v : V) : dict V :=
  match d with
  | [] => [(k, v)]
  | (k', v') :: r =>
      if String.eqb k' k then (k', v) :: r else (k', v') :: setitem r k v
  end.

(** [d.update(other)]: the entries of [other], in its order. *)
Definition update {V} (d other : dict V) : dict V :=
  fold_left (fun acc kv => setitem acc (fst kv) (snd kv)) other d.

End Dict.
Import Dict.

(** ** The flattener *)

(** [str(i)] *)
Definition str_of_nat (i : nat) : string :=
  NilZero.string_of_uint (Nat.to_uint i).

(** [f"{parent_key}{sep}{k}" if parent_key else k]: the empty string is
    falsy. *)
Definition new_key (parent_key sep k : string) : string :=
  match parent_key with
  | EmptyString => k
  | _ => parent_key ++ sep ++ k
  end.

(** [_flatten(obj, parent_key, sep)], lines 47-59. *)
Fixpoint _flatten (obj : json) (parent_key sep : string) : dict json :=
  match obj with
  | JObj fields =>
      (fix loop (l : list (string * json)) (items : dict json) : dict json :=
         match l with
         | [] => items
         | (k, v) :: r =>
             loop r (update items (_flatten v (new_key parent_key sep k) sep))
         end) fields []
  | JArr elems =>
      (fix loop (l : list json) (i : nat) (items : dict json) : dict json :=
         match l with
         | [] => items
         | v :: r =>
             loop r (S i)
               (update items
                  (_flatten v (new_key parent_key sep (str_of_nat i)) sep))
         end) elems 0 []
  | _ => setitem [] parent_key obj
  end.

(** ** Exceptions, JSON texts and the library calls on them *)

(** The exception classes the program can meet. [LibraryError] is what a
    collaborator (the MinIO client, pandas, pyarrow) raises. *)
Inductive exn : Type :=
| KeyError
| IndexError
| TypeError
| JSONDecodeError
| LibraryError (what : string).

Inductive result (A : Type) : Type :=
| Returned (a : A)
| Raised (e : exn).
Arguments Returned {A} a.
Arguments Raised {A} e.

(** A [str] handed to [json.loads]: either the text of a value, or
    something the parser rejects. *)
Inductive text : Type :=
| Text (v : json)
| Malformed (raw : string).

(** [json.loads(json_str)]; [json_str] is [None] when the read failed. *)
Definition json_loads (json_str : option text) : result json :=
  match json_str with
  | None => Raised TypeError
  | Some (Malformed _) => Raised JSONDecodeError
  | Some (Text v) => Returned v
  end.

(** [json.dumps(record)] *)
Definition json_dumps (record : json) : text := Text record.

(** [data["results"][0]], line 124, for [data] a dict. A string is
    subscriptable, a dict has no key [0], the other scalars raise. *)
Definition results_first (data : dict json) : result json :=
  match getitem data "results" with
  | None => Raised KeyError
  | Some (JArr []) => Raised IndexError
  | Some (JArr (x :: _)) => Returned x
  | Some (JStr EmptyString) => Raised IndexError
  | Some (JStr (String c _)) => Returned (JStr (String c EmptyString))
  | Some (JObj _) => Raised KeyError
  | Some _ => Raised TypeError
  end.

(** [for record in data], line 127: what iteration visits. A [str]
    iterates over its characters; the dict case never reaches the loop. *)
Definition iterate (data : json) : result (list json) :=
  match data with
  | JArr elems => Returned elems
  | JStr s =>
      Returned (map (fun c => JStr (String c EmptyString))
                  (list_ascii_of_string s))
  | JObj fields => Returned (map (fun kv => JStr (fst kv)) fields)
  | _ => Raised TypeError
  end.

(** ** pandas *)

(** A cell of a data frame records where pandas took it from: [Filled v]
    is the cell pandas built from the value [v] of the record, [Missing]
    is the cell of a column the record has no key for (pandas writes NaN
    there, which pyarrow reads as null). How a column's dtype stores a
    value, an integer of a padded column as a float64 for instance, is
    pandas' own and is not part of the model. *)
Inductive cell : Type :=
| Missing
| Filled (value : json).

Record frame : Type := { columns : list string; rows : list (list cell) }.

(** The columns [pd.DataFrame] gives a list of dicts: every key, in the
    order in which it is first met. *)
Definition add_columns (cols : list string) (d : dict json) : list string :=
  fold_left
    (fun cols k => if existsb (String.eqb k) cols then cols else cols ++ [k])
    (keys d) cols.

(** One row: in each column the cell filled from the record's value
    under that key, the missing cell where the record has no such key. *)
Definition row_of (cols : list string) (d : dict json) : list cell :=
  map (fun c => match getitem d c with Some v => Filled v | None => Missing end)
    cols.

(** [pd.DataFrame(flattened_data)], line 132. *)
Definition DataFrame (data : list (dict json)) : frame :=
  let cols := fold_left add_columns data [] in
  {| columns := cols; rows := map (row_of cols) data |}.

(** ** Python string methods used by [main] *)

(** [s.split(sep)] for a one-character separator. *)
Fixpoint split (sep : ascii) (s : string) : list string :=
  match s with
  | EmptyString => [EmptyString]
  | String c r =>
      if Ascii.eqb c sep then EmptyString :: split sep r
      else match split sep r with
           | h :: t => String c h :: t
           | [] => [String c EmptyString]
           end
  end.

(** [l[-1]] on a list that [split] returned. *)
Definition last_item (l : list string) : string := last l EmptyString.

Fixpoint replace_from (old new : string) (skip : nat) (s : string) : string :=
  match s with
  | EmptyString => EmptyString
  | String c r =>
      match skip with
      | S n => replace_from old new n r
      | O =>
          if String.prefix old s
          then new ++ replace_from old new (String.length old - 1) r
          else String c (replace_from old new 0 r)
      end
  end.

(** [s.replace(old, new)] for a non-empty [old]: every occurrence, left
    to right, without overlap. *)
Definition replace (old new s : string) : string := replace_from old new 0 s.

(** ** The collaborators *)

(** The MinIO client and the Parquet encoder, as the program calls them.
    The endpoint and the credentials belong to the client. [write_table]
    stands for [pa.Table.from_pandas] followed by [pq.write_table]. *)
Class Collaborators (store parquet : Type) : Type := {
  list_objects : string -> string -> store -> result (list string);
  get_object : string -> string -> store -> result text;
  write_table : frame -> result parquet;
  bucket_exists : string -> store -> result bool;
  make_bucket : string -> store -> result store;
  put_object : string -> string -> parquet -> store -> result store
}.

(** What the program prints. *)
Inductive event : Type :=
| ErrorListing (e : exn)
| ErrorFlattening (e : exn)
| ErrorReading (e : exn)
| ErrorConverting (e : exn)
| Uploaded (bucket_name object_name : string)
| FilesToBeTransformed (objects : list string)
| Reading (source_object_name : string)
| Converting (source_object_name destination_object_name : string)
| Elapsed.

(** ** The monad of the program *)

Section Program.
Context {store parquet : Type} {minio : Collaborators store parquet}.

Record state : Type := { st_store : store; st_log : list event }.

Definition M (A : Type) : Type := state -> result A * state.

Definition ret {A} (a : A) : M A := fun s => (Returned a, s).

Definition bind {A B} (m : M A) (k : A -> M B) : M B :=
  fun s =>
    match m s with
    | (Returned a, s') => k a s'
    | (Raised e, s') => (Raised e, s')
    end.

(** [try: body except Exception as e: handler(e)] *)
Definition try_except {A} (body : M A) (handler : exn -> M A) : M A :=
  fun s =>
    match body s with
    | (Returned a, s') => (Returned a, s')
    | (Raised e, s') => handler e s'
    end.

Definition lift {A} (r : result A) : M A := fun s => (r, s).

Definition print (e : event) : M unit :=
  fun s =>
    (Returned tt, {| st_store := st_store s; st_log := st_log s ++ [e] |}).

Definition reading {A} (call : store -> result A) : M A :=
  fun s => (call (st_store s), s).

Definition writing (call : store -> result store) : M unit :=
  fun s =>
    match call (st_store s) with
    | Returned st' => (Returned tt, {| st_store := st'; st_log := st_log s |})
    | Raised e => (Raised e, s)
    end.

Notation "x <- m ;; k" := (bind m (fun x => k))
  (at level 61, m at next level, right associativity).
Notation "m ;;; k" := (bind m (fun _ => k))
  (at level 61, right associativity).

(** [for x in l: body(x)] *)
Fixpoint for_each {A} (l : list A) (body : A -> M unit) : M unit :=
  match l with
  | [] => ret tt
  | x :: r => body x ;;; for_each r body
  end.

(** ** The functions of [main.py] *)

(** Lines 10-36. *)
Definition list_objects_in_minio_folder (bucket_name prefix : string)
  : M (list string) :=
  try_except
    (reading (list_objects bucket_name prefix))
    (fun e => print (ErrorListing e) ;;; ret []).

(** Lines 39-66. *)
Definition flatten_json_string (json_str : option text) (sep : string)
  : M (option (dict json)) :=
  try_except
    (data <- lift (json_loads json_str) ;;
     ret (Some (_flatten data "" sep)))
    (fun e => print (ErrorFlattening e) ;;; ret None).

(** Lines 69-98. *)
Definition read_json_from_minio (bucket_name object_name : string)
  : M (option text) :=
  try_except
    (json_str <- reading (get_object bucket_name object_name) ;;
     ret (Some json_str))
    (fun e => print (ErrorReading e) ;;; ret None).

(** Lines 126-131: the loop that flattens each record. *)
Fixpoint flatten_records (data : list json)
    (flattened_data : list (dict json)) : M (list (dict json)) :=
  match data with
  | [] => ret flattened_data
  | record :: r =>
      flat <- flatten_json_string (Some (json_dumps record)) "_" ;;
      match flat with
      | Some flat => flatten_records r (flattened_data ++ [flat])
      | None => flatten_records r flattened_data
      end
  end.

(** Lines 122-132: from the text to the data frame. *)
Definition assemble (json_str : option text) : M frame :=
  data <- lift (json_loads json_str) ;;
  data <- match data with
          | JObj fields =>
              first <- lift (results_first fields) ;; ret (JArr [first])
          | _ => ret data
          end ;;
  records <- lift (iterate data) ;;
  flattened_data <- flatten_records records [] ;;
  ret (DataFrame flattened_data).

(** Lines 133-151: encode and upload. *)
Definition upload (df : frame) (bucket_name object_name : string)
  : M unit :=
  out_buffer <- lift (write_table df) ;;
  present <- reading (bucket_exists bucket_name) ;;
  (if present : bool then ret tt else writing (make_bucket bucket_name)) ;;;
  writing (put_object bucket_name object_name out_buffer) ;;;
  print (Uploaded bucket_name object_name).

(** Lines 101-153. *)
Definition json_string_to_parquet_minio (json_str : option text)
    (bucket_name object_name : string) : M unit :=
  try_except
    (df <- assemble json_str ;; upload df bucket_name object_name)
    (fun e => print (ErrorConverting e)).

Definition source_bucket_name : string := "raw".
Definition destination_bucket_name : string := "processed".
Definition year : nat := 2025.
Definition month : nat := 12.
Definition day : nat := 19.
Definition hour : nat := 14.

(** [f"year={year}/month={month}/day={day}/hour={hour}/"] *)
Definition partition_prefix : string :=
  "year=" ++ str_of_nat year ++ "/month=" ++ str_of_nat month
  ++ "/day=" ++ str_of_nat day ++ "/hour=" ++ str_of_nat hour ++ "/".

(** Line 189. *)
Definition destination_object_name (source_object_name : string) : string :=
  partition_prefix
  ++ replace ".json" ".parquet"
       (last_item (split "/"%char source_object_name)).

(** One turn of the loop of [main], lines 177-203. *)
Definition process_object (object_name : string) : M unit :=
  let source_object_name := object_name in
  print (Reading source_object_name) ;;;
  json_str <- read_json_from_minio source_bucket_name source_object_name ;;
  print (Converting source_object_name
           (destination_object_name source_object_name)) ;;;
  json_string_to_parquet_minio json_str destination_bucket_name
    (destination_object_name source_object_name) ;;;
  print Elapsed.

(** Lines 156-203. *)
Definition main : M unit :=
  objects_to_be_transformed <-
    list_objects_in_minio_folder source_bucket_name partition_prefix ;;
  print (FilesToBeTransformed objects_to_be_transformed) ;;;
  for_each objects_to_be_transformed process_object.

End Program.

Arguments state : clear implicits.
Arguments M : clear implicits.

Declare Scope prog_scope.
Delimit Scope prog_scope with prog.
Notation "x <- m ;; k" := (bind m (fun x => k))
  (at level 61, m at next level, right associativity) : prog_scope.
Notation "m ;;; k" := (bind m (fun _ => k))
  (at level 61, right associativity) : prog_scope.

(** ** What the specification talks about *)

(** The number of scalar leaves of a document. *)
Fixpoint count_leaves (v : json) : nat :=
  match v with
  | JObj fields =>
      (fix sum (l : list (string * json)) : nat :=
         match l with
         | [] => 0
         | kv :: r => count_leaves (snd kv) + sum r
         end) fields
  | JArr elems =>
      (fix sum (l : list json) : nat :=
         match l with
         | [] => 0
         | x :: r => count_leaves x + sum r
         end) elems
  | _ => 1
  end.

(** Every scalar leaf with the key its path is joined into, in traversal
    order; two leaves may carry the same key. *)
Fixpoint leaf_entries (v : json) (parent_key sep : string)
  : list (string * json) :=
  match v with
  | JObj fields =>
      (fix go (l : list (string * json)) : list (string * json) :=
         match l with
         | [] => []
         | kv :: r =>
             leaf_entries (snd kv) (new_key parent_key sep (fst kv)) sep
             ++ go r
         end) fields
  | JArr elems =>
      (fix go (l : list json) (i : nat) : list (string * json) :=
         match l with
         | [] => []
         | x :: r =>
             leaf_entries x (new_key parent_key sep (str_of_nat i)) sep
             ++ go r (S i)
         end) elems 0
  | _ => [(parent_key, v)]
  end.

(** The value of the last entry of [l] under key [k]. *)
Definition last_value {V} (k : string) (l : list (string * V)) : option V :=
  getitem (rev l) k.

(** A list of keys with every repetition after the first one dropped. *)
Fixpoint first_seen (l : list string) : list string :=
  match l with
  | [] => []
  | x :: r => x :: filter (fun y => negb (String.eqb y x)) (first_seen r)
  end.

(** The ordered union of the keys of a sequence of flat records. *)
Definition ordered_union (records : list (dict json)) : list string :=
  first_seen (List.concat (map keys records)).

(** [k] is not yet among the columns [cols]. *)
Definition unseen (cols : list string) (k : string) : bool :=
  negb (existsb (String.eqb k) cols).

(** The objects the log says were read, and the conversions it says were
    started, in order. *)
Fixpoint read_attempts (log : list event) : list string :=
  match log with
  | [] => []
  | Reading n :: r => n :: read_attempts r
  | _ :: r => read_attempts r
  end.

Fixpoint conversions (log : list event) : list (string * string) :=
  match log with
  | [] => []
  | Converting s d :: r => (s, d) :: conversions r
  | _ :: r => conversions r
  end.

Fixpoint finished (log : list event) : nat :=
  match log with
  | [] => 0
  | Elapsed :: r => S (finished r)
  | _ :: r => finished r
  end.

(** The lines printed inside the helper functions, as opposed to the
    lines [main] prints itself. *)
Definition inner_event (e : event) : Prop :=
  match e with
  | ErrorListing _ | ErrorFlattening _ | ErrorReading _
  | ErrorConverting _ | Uploaded _ _ => True
  | _ => False
  end.

(** [m] only adds inner lines to the log, whatever it returns or raises. *)
Definition quiet {store A} (m : M store A) : Prop :=
  forall st, exists evs,
    st_log (snd (m st)) = st_log st ++ evs /\ Forall inner_event evs.

(** [m] never raises. *)
Definition total {store A} (m : M store A) : Prop :=
  forall st, exists a, fst (m st) = Returned a.

(** The state [st] after [evs] more lines were printed. *)
Definition logged {store} (st : state store) (evs : list event) : state store :=
  {| st_store := st_store st; st_log := st_log st ++ evs |}.

(** ** An object store in memory *)

(** A MinIO that keeps its buckets in a dict; used to run the program on
    concrete inputs. The encoder keeps the frame as it is. *)
Module MemStore.

Inductive blob : Type :=
| Raw (t : text)
| Columnar (f : frame).

Definition store : Type := dict (dict blob).

Definition no_such_bucket {A} : result A :=
  Raised (LibraryError "NoSuchBucket").

Definition mem_list_objects (bucket prefix : string) (st : store)
  : result (list string) :=
  match getitem st bucket with
  | None => no_such_bucket
  | Some objs => Returned (filter (String.prefix prefix) (keys objs))
  end.

Definition mem_get_object (bucket name : string) (st : store)
  : result text :=
  match getitem st bucket with
  | None => no_such_bucket
  | Some objs =>
      match getitem objs name with
      | Some (Raw t) => Returned t
      | Some (Columnar _) => Raised (LibraryError "UnicodeDecodeError")
      | None => Raised (LibraryError "NoSuchKey")
      end
  end.

Definition mem_bucket_exists (bucket : string) (st : store) : result bool :=
  Returned (match getitem st bucket with Some _ => true | None => false end).

Definition mem_make_bucket (bucket : string) (st : store) : result store :=
  Returned (setitem st bucket []).

Definition mem_put_object (bucket name : string) (data : frame) (st : store)
  : result store :=
  match getitem st bucket with
  | None => no_such_bucket
  | Some objs => Returned (setitem st bucket (setitem objs name (Columnar data)))
  end.

#[local] Instance mem : Collaborators store frame := {|
  list_objects := mem_list_objects;
  get_object := mem_get_object;
  write_table := fun df => Returned df;
  bucket_exists := mem_bucket_exists;
  make_bucket := mem_make_bucket;
  put_object := mem_put_object
|}.

Definition fresh (st : store) : state store :=
  {| st_store := st; st_log := [] |}.

End MemStore.

(** ** Collaborators that fail *)

(** The in-memory store with a [put_object] that is refused, and with an
    encoder that rejects every frame. *)
Module FaultyStore.

#[local] Instance deny_put : Collaborators MemStore.store frame := {|
  list_objects := MemStore.mem_list_objects;
  get_object := MemStore.mem_get_object;
  write_table := fun df => Returned df;
  bucket_exists := MemStore.mem_bucket_exists;
  make_bucket := MemStore.mem_make_bucket;
  put_object := fun _ _ _ _ => Raised (LibraryError "AccessDenied")
|}.

#[local] Instance no_encoder : Collaborators MemStore.store frame := {|
  list_objects := MemStore.mem_list_objects;
  get_object := MemStore.mem_get_object;
  write_table := fun df => Raised (LibraryError "ArrowInvalid");
  bucket_exists := MemStore.mem_bucket_exists;
  make_bucket := MemStore.mem_make_bucket;
  put_object := MemStore.mem_put_object
|}.

End FaultyStore.

(** ** Documents that flatten without loss *)

(** No object of the document has a key twice, and every key is
    non-empty and free of the underscore the program joins keys with. *)
Fixpoint plain_keys (v : json) : Prop :=
  match v with
  | JArr elems =>
      (fix all (l : list json) : Prop :=
         match l with
         | [] => True
         | x :: r => plain_keys x /\ all r
         end) elems
  | JObj fields =>
      NoDup (keys fields) /\
      (fix all (l : list (string * json)) : Prop :=
         match l with
         | [] => True
         | kv :: r =>
             (fst kv <> EmptyString /\
              ~ In "_"%char (list_ascii_of_string (fst kv)) /\
              plain_keys (snd kv)) /\ all r
         end) fields
  | _ => True
  end.

(** The elements of an array with the keys [enumerate] gives them, from
    index [i] on. *)
Definition numbered (i : nat) (elems : list json) : list (string * json) :=
  combine (map str_of_nat (seq i (List.length elems))) elems.

(** ** The upload service *)

(** [src/services/write_parquet_to_minio.py]. The function has no handler
    of its own: what a MinIO call raises reaches the caller. It prints its
    own line, kept apart from the lines of [main.py]. *)
Module Service.

Inductive line : Type :=
| AggregatedUploaded (destination_bucket_name destination_object_name : string).

Section WithCollaborators.
Context {store parquet : Type} {minio : Collaborators store parquet}.

(** Lines 4-30, over the store and the lines printed so far. *)
Definition write_parquet_to_minio (buffer : parquet)
    (destination_bucket_name destination_object_name : string)
    (st : store) (printed : list line) : result unit * store * list line :=
  match bucket_exists destination_bucket_name st with
  | Raised e => (Raised e, st, printed)
  | Returned present =>
      match
        (if present : bool then Returned st
         else make_bucket destination_bucket_name st)
      with
      | Raised e => (Raised e, st, printed)
      | Returned st1 =>
          match
            put_object destination_bucket_name destination_object_name
              buffer st1
          with
          | Raised e => (Raised e, st1, printed)
          | Returned st2 =>
              (Returned tt, st2,
               printed ++ [AggregatedUploaded destination_bucket_name
                             destination_object_name])
          end
      end
  end.

End WithCollaborators.

End Service.

(** * Proofs *)

(** ** Dictionaries *)

Module DictFacts.

Section WithValues.
Context {V : Type}.
Implicit Types (d e l : dict V) (k : string) (v : V).

Lemma getitem_None d k : getitem d k = None <-> ~ In k (keys d).
Proof.
  induction d as [|[k' v'] d IH]; simpl; [tauto|].
  destruct (String.eqb_spec k' k) as [->|Hne].
  - split; [discriminate | intros H; exfalso; apply H; now left].
  - rewrite IH. split; [intros H [E|I]; auto | tauto].
Qed.

Lemma getitem_In d k v : getitem d k = Some v -> In (k, v) d.
Proof.
  induction d as [|[k' v'] d IH]; simpl; [discriminate|].
  destruct (String.eqb_spec k' k) as [->|Hne].
  - intros [= ->]. now left.
  - intros H. right. auto.
Qed.

Lemma getitem_app d e k :
  getitem (d ++ e) k =
  match getitem d k with Some x => Some x | None => getitem e k end.
Proof.
  induction d as [|[k' v'] d IH]; simpl; [reflexivity|].
  now destruct (String.eqb k' k).
Qed.

Lemma getitem_setitem d k v k' :
  getitem (setitem d k v) k' =
  if String.eqb k k' then Some v else getitem d k'.
Proof.
  induction d as [|[k0 v0] d IH]; simpl.
  - reflexivity.
  - destruct (String.eqb_spec k0 k) as [->|Hne]; simpl.
    + now destruct (String.eqb k k').
    + rewrite IH.
      destruct (String.eqb_spec k0 k') as [->|Hne']; [|reflexivity].
      destruct (String.eqb_spec k k'); [congruence | reflexivity].
Qed.

Lemma setitem_absent d k v : ~ In k (keys d) -> setitem d k v = d ++ [(k, v)].
Proof.
  induction d as [|[k0 v0] d IH]; simpl; intros H; [reflexivity|].
  destruct (String.eqb_spec k0 k) as [->|Hne]; [tauto|].
  rewrite IH; tauto.
Qed.

Lemma keys_setitem_present d k v :
  In k (keys d) -> keys (setitem d k v) = keys d.
Proof.
  induction d as [|[k0 v0] d IH]; simpl; intros H; [tauto|].
  destruct (String.eqb_spec k0 k) as [->|Hne]; simpl; [reflexivity|].
  f_equal. apply IH. tauto.
Qed.

Lemma keys_setitem_In d k v k' :
  In k' (keys (setitem d k v)) <-> k' = k \/ In k' (keys d).
Proof.
  induction d as [|[k0 v0] d IH]; simpl.
  - intuition.
  - destruct (String.eqb_spec k0 k) as [->|Hne]; simpl.
    + intuition.
    + rewrite IH. intuition.
Qed.

Lemma NoDup_keys_setitem d k v :
  NoDup (keys d) -> NoDup (keys (setitem d k v)).
Proof.
  induction d as [|[k0 v0] d IH]; simpl; intros H.
  - constructor; [tauto | constructor].
  - inversion H as [|? ? Hn Hd]; subst.
    destruct (String.eqb_spec k0 k) as [->|Hne]; simpl.
    + now constructor.
    + constructor; [|auto].
      rewrite keys_setitem_In. intros [E|I]; congruence.
Qed.

Lemma NoDup_keys_update l d : NoDup (keys d) -> NoDup (keys (update d l)).
Proof.
  revert d. induction l as [|[k v] l IH]; intros d H; simpl; [assumption|].
  apply IH, NoDup_keys_setitem, H.
Qed.

Lemma update_app d l l' : update d (l ++ l') = update (update d l) l'.
Proof. apply fold_left_app. Qed.

Lemma keys_update_In l d k :
  In k (keys (update d l)) <-> In k (keys d) \/ In k (keys l).
Proof.
  revert d. induction l as [|[k0 v0] l IH]; intros d; simpl.
  - tauto.
  - change (In k (keys (update (setitem d k0 v0) l)) <->
            In k (keys d) \/ k0 = k \/ In k (keys l)).
    rewrite IH, keys_setitem_In. intuition.
Qed.

Lemma setitem_twice d k v v' : setitem (setitem d k v') k v = setitem d k v.
Proof.
  induction d as [|[k0 v0] d IH]; simpl.
  - now rewrite String.eqb_refl.
  - destruct (String.eqb_spec k0 k) as [->|Hne]; simpl.
    + now rewrite String.eqb_refl.
    + destruct (String.eqb_spec k0 k); [congruence|]. now rewrite IH.
Qed.

Lemma setitem_swap d k v k1 v1 :
  k <> k1 -> In k (keys d) ->
  setitem (setitem d k1 v1) k v = setitem (setitem d k v) k1 v1.
Proof.
  intros Hne. induction d as [|[k0 v0] d IH]; simpl; intros Hin; [tauto|].
  destruct (String.eqb_spec k0 k1) as [E1|H1];
    destruct (String.eqb_spec k0 k) as [E0|H0]; simpl;
    try congruence.
  - destruct (String.eqb_spec k0 k); [congruence|].
    destruct (String.eqb_spec k0 k1); [reflexivity | congruence].
  - destruct (String.eqb_spec k0 k); [|congruence].
    destruct (String.eqb_spec k0 k1); [congruence | reflexivity].
  - destruct (String.eqb_spec k0 k); [congruence|].
    destruct (String.eqb_spec k0 k1); [congruence|].
    f_equal. apply IH. destruct Hin; [congruence | assumption].
Qed.

Lemma setitem_update_swap e d k v :
  ~ In k (keys e) -> In k (keys d) ->
  setitem (update d e) k v = update (setitem d k v) e.
Proof.
  revert d. induction e as [|[k1 v1] e IH]; intros d Hn Hin; simpl in *.
  - reflexivity.
  - change (setitem (update (setitem d k1 v1) e) k v =
            update (setitem (setitem d k v) k1 v1) e).
    rewrite IH.
    + rewrite setitem_swap; auto.
    + tauto.
    + apply keys_setitem_In. now right.
Qed.

(** Assigning into the argument of [update] is assigning into its
    result. *)
Lemma update_setitem e d k v :
  NoDup (keys e) -> update d (setitem e k v) = setitem (update d e) k v.
Proof.
  revert d. induction e as [|[k1 v1] e IH]; intros d Hnd; simpl.
  - reflexivity.
  - inversion Hnd as [|? ? Hn Hd]; subst.
    destruct (String.eqb_spec k1 k) as [->|Hne]; simpl.
    + change (update (setitem d k v) e =
              setitem (update (setitem d k v1) e) k v).
      rewrite setitem_update_swap; auto.
      * now rewrite setitem_twice.
      * apply keys_setitem_In. now left.
    + change (update (setitem d k1 v1) (setitem e k v) =
              setitem (update (setitem d k1 v1) e) k v).
      now apply IH.
Qed.

Lemma update_update l d e :
  NoDup (keys e) -> update d (update e l) = update (update d e) l.
Proof.
  revert e. induction l as [|[k v] l IH]; intros e Hnd; simpl.
  - reflexivity.
  - change (update d (update (setitem e k v) l) =
            update (setitem (update d e) k v) l).
    rewrite IH by now apply NoDup_keys_setitem.
    now rewrite update_setitem.
Qed.

(** Updating with a dict built from entries is updating with the
    entries. *)
Lemma update_of_entries d l : update d (update [] l) = update d l.
Proof. rewrite update_update by constructor. reflexivity. Qed.

Lemma getitem_update l d k :
  getitem (update d l) k =
  match last_value k l with Some x => Some x | None => getitem d k end.
Proof.
  unfold last_value. revert d.
  induction l as [|[k1 v1] l IH]; intros d; simpl; [reflexivity|].
  change (getitem (update (setitem d k1 v1) l) k =
          match getitem (rev l ++ [(k1, v1)]) k with
          | Some x => Some x
          | None => getitem d k
          end).
  rewrite IH, getitem_app, getitem_setitem. simpl.
  destruct (getitem (rev l) k); [reflexivity|].
  now destruct (String.eqb k1 k).
Qed.

Lemma length_setitem d k v :
  List.length (setitem d k v) =
  if existsb (String.eqb k) (keys d) then List.length d else S (List.length d).
Proof.
  induction d as [|[k0 v0] d IH]; simpl; [reflexivity|].
  rewrite (String.eqb_sym k k0).
  destruct (String.eqb k0 k); simpl; [reflexivity|].
  rewrite IH. now destruct (existsb (String.eqb k) (keys d)).
Qed.

Lemma existsb_eqb_In k (ks : list string) :
  existsb (String.eqb k) ks = true <-> In k ks.
Proof.
  rewrite existsb_exists. split.
  - intros [x [Hin E]]. apply String.eqb_eq in E. now subst.
  - intros H. exists k. split; [assumption | apply String.eqb_refl].
Qed.

Lemma length_update_le l d : List.length (update d l) <= List.length d + List.length l.
Proof.
  revert d. induction l as [|[k v] l IH]; intros d; simpl; [lia|].
  change (List.length (update (setitem d k v) l) <= List.length d + S (List.length l)).
  specialize (IH (setitem d k v)). rewrite length_setitem in IH.
  destruct (existsb (String.eqb k) (keys d)); lia.
Qed.

Lemma update_disjoint l d :
  NoDup (keys d ++ keys l) -> update d l = d ++ l.
Proof.
  revert d. induction l as [|[k v] l IH]; intros d H; simpl.
  - now rewrite app_nil_r.
  - change (update (setitem d k v) l = d ++ (k, v) :: l).
    simpl in H. pose proof (NoDup_remove_2 _ _ _ H) as Hn.
    rewrite setitem_absent by (intros I; apply Hn, in_or_app; now left).
    rewrite IH.
    + now rewrite <- app_assoc.
    + unfold keys in *. rewrite map_app, <- app_assoc. exact H.
Qed.

Lemma length_update_full l d :
  NoDup (keys d) -> List.length (update d l) = List.length d + List.length l ->
  NoDup (keys d ++ keys l).
Proof.
  revert d. induction l as [|[k v] l IH]; intros d Hd Hlen; simpl in *.
  - now rewrite app_nil_r.
  - change (List.length (update (setitem d k v) l) = List.length d + S (List.length l))
      in Hlen.
    pose proof (length_update_le l (setitem d k v)) as Hle.
    rewrite length_setitem in Hle.
    destruct (existsb (String.eqb k) (keys d)) eqn:Ex; [lia|].
    assert (Hn : ~ In k (keys d)).
    { intros I. apply existsb_eqb_In in I. congruence. }
    rewrite setitem_absent in Hlen by assumption.
    specialize (IH (d ++ [(k, v)])).
    unfold keys in *. rewrite map_app, <- app_assoc in IH. simpl in IH.
    apply IH.
    + apply NoDup_keys_setitem with (k := k) (v := v) in Hd.
      rewrite setitem_absent in Hd by assumption.
      unfold keys in Hd. now rewrite map_app in Hd.
    + rewrite List.length_app. simpl. lia.
Qed.

Lemma In_setitem d k v kv : In kv (setitem d k v) -> kv = (k, v) \/ In kv d.
Proof.
  induction d as [|[k0 v0] d IH]; simpl.
  - intuition.
  - destruct (String.eqb_spec k0 k) as [->|Hne]; simpl; intuition.
Qed.

Lemma In_update l d kv : In kv (update d l) -> In kv d \/ In kv l.
Proof.
  revert d. induction l as [|[k v] l IH]; intros d; simpl; [tauto|].
  change (In kv (update (setitem d k v) l) ->
          In kv d \/ (k, v) = kv \/ In kv l).
  intros H. apply IH in H. destruct H as [H|H]; [|tauto].
  apply In_setitem in H. intuition.
Qed.

End WithValues.

End DictFacts.
Import DictFacts.

(** ** The flattener and the leaves of a document *)

Module FlattenFacts.

(** [_flatten] assigns the leaf entries, in traversal order, into an
    empty dict. *)
Lemma flatten_leaf_entries v :
  forall parent_key sep,
    _flatten v parent_key sep = update [] (leaf_entries v parent_key sep).
Proof.
  induction v as [| b | n | s | elems IH | fields IH] using json_induction;
    intros pk sep;
    try reflexivity.
  - simpl.
    assert (G : forall i items,
      (fix loop (l : list json) (i : nat) (items : dict json) : dict json :=
         match l with
         | [] => items
         | v :: r =>
             loop r (S i)
               (update items (_flatten v (new_key pk sep (str_of_nat i)) sep))
         end) elems i items
      = update items
          ((fix go (l : list json) (i : nat) : list (string * json) :=
              match l with
              | [] => []
              | x :: r =>
                  leaf_entries x (new_key pk sep (str_of_nat i)) sep
                  ++ go r (S i)
              end) elems i)).
    { induction IH as [|x r Hx _ IHr]; intros i items; [reflexivity|].
      rewrite IHr, Hx, update_of_entries, update_app. reflexivity. }
    apply G.
  - simpl.
    assert (G : forall items,
      (fix loop (l : list (string * json)) (items : dict json) : dict json :=
         match l with
         | [] => items
         | (k, v) :: r =>
             loop r (update items (_flatten v (new_key pk sep k) sep))
         end) fields items
      = update items
          ((fix go (l : list (string * json)) : list (string * json) :=
              match l with
              | [] => []
              | kv :: r =>
                  leaf_entries (snd kv) (new_key pk sep (fst kv)) sep ++ go r
              end) fields)).
    { induction IH as [|[k x] r Hx _ IHr]; intros items; [reflexivity|].
      simpl in Hx. rewrite IHr, Hx, update_of_entries, update_app.
      reflexivity. }
    apply G.
Qed.

Lemma length_leaf_entries v :
  forall parent_key sep,
    List.length (leaf_entries v parent_key sep) = count_leaves v.
Proof.
  induction v as [| b | n | s | elems IH | fields IH] using json_induction;
    intros pk sep;
    try reflexivity.
  - simpl. generalize 0 at 1.
    induction IH as [|x r Hx _ IHr]; intros i; [reflexivity|].
    rewrite List.length_app, Hx, IHr. reflexivity.
  - simpl.
    induction IH as [|[k x] r Hx _ IHr]; [reflexivity|].
    rewrite List.length_app, Hx, IHr. reflexivity.
Qed.

Lemma leaf_entries_scalar v :
  forall parent_key sep,
    Forall (fun kv => is_scalar (snd kv) = true)
      (leaf_entries v parent_key sep).
Proof.
  induction v as [| b | n | s | elems IH | fields IH] using json_induction;
    intros pk sep;
    try (repeat constructor).
  - simpl. generalize 0.
    induction IH as [|x r Hx _ IHr]; intros i; [constructor|].
    apply Forall_app. split; [apply Hx | apply IHr].
  - simpl.
    induction IH as [|[k x] r Hx _ IHr]; [constructor|].
    apply Forall_app. split; [apply Hx | apply IHr].
Qed.

Lemma flatten_scalar v parent_key sep :
  Forall (fun kv => is_scalar (snd kv) = true) (_flatten v parent_key sep).
Proof.
  rewrite flatten_leaf_entries. apply Forall_forall. intros kv H.
  apply In_update in H. destruct H as [[]|H].
  pose proof (leaf_entries_scalar v parent_key sep) as S.
  rewrite Forall_forall in S. auto.
Qed.

Lemma flatten_NoDup v parent_key sep :
  NoDup (keys (_flatten v parent_key sep)).
Proof.
  rewrite flatten_leaf_entries. apply NoDup_keys_update. constructor.
Qed.

Lemma flatten_length_le v parent_key sep :
  List.length (_flatten v parent_key sep) <= count_leaves v.
Proof.
  rewrite flatten_leaf_entries, <- (length_leaf_entries v parent_key sep).
  apply (length_update_le (leaf_entries v parent_key sep) []).
Qed.

Lemma flatten_length_eq v parent_key sep :
  List.length (_flatten v parent_key sep) = count_leaves v <->
  NoDup (keys (leaf_entries v parent_key sep)).
Proof.
  rewrite flatten_leaf_entries, <- (length_leaf_entries v parent_key sep).
  split; intros H.
  - apply (length_update_full (leaf_entries v parent_key sep) []).
    + constructor.
    + exact H.
  - rewrite update_disjoint; [reflexivity | exact H].
Qed.

(** A flat object has its own fields as leaf entries. *)
Lemma leaf_entries_flat fields sep :
  Forall (fun kv => is_scalar (snd kv) = true) fields ->
  leaf_entries (JObj fields) "" sep = fields.
Proof.
  intros H. simpl. induction H as [|[k x] r Hx _ IHr]; [reflexivity|].
  rewrite IHr. simpl in *. destruct x; try discriminate; reflexivity.
Qed.

End FlattenFacts.
Import FlattenFacts.

(** ** The columns of a data frame *)

Module FrameFacts.

Lemma filter_swap {A} (p q : A -> bool) l :
  filter p (filter q l) = filter q (filter p l).
Proof.
  induction l as [|x l IH]; simpl; [reflexivity|].
  destruct (p x) eqn:Hp, (q x) eqn:Hq; simpl; rewrite ?Hp, ?Hq, IH;
    reflexivity.
Qed.

Lemma filter_both {A} (p q : A -> bool) l :
  filter (fun x => p x && q x) l = filter q (filter p l).
Proof.
  induction l as [|x l IH]; simpl; [reflexivity|].
  destruct (p x); simpl; [destruct (q x)|]; rewrite IH; reflexivity.
Qed.

Lemma filter_others p x l :
  p x = false ->
  filter p (filter (fun y => negb (String.eqb y x)) l) = filter p l.
Proof.
  intros Hx. induction l as [|y l IH]; simpl; [reflexivity|].
  destruct (String.eqb_spec y x) as [->|Hne]; simpl.
  - now rewrite Hx.
  - now rewrite IH.
Qed.

Lemma first_seen_filter p l :
  first_seen (filter p l) = filter p (first_seen l).
Proof.
  induction l as [|x l IH]; simpl; [reflexivity|].
  destruct (p x) eqn:Hx; simpl.
  - now rewrite IH, filter_swap.
  - now rewrite IH, filter_others.
Qed.

Lemma first_seen_In l x : In x (first_seen l) <-> In x l.
Proof.
  induction l as [|y l IH]; simpl; [tauto|].
  rewrite filter_In, IH, negb_true_iff.
  destruct (String.eqb_spec x y) as [->|Hne]; intuition congruence.
Qed.

Lemma first_seen_NoDup l : NoDup (first_seen l).
Proof.
  induction l as [|y l IH]; simpl; constructor.
  - rewrite filter_In, String.eqb_refl. intros [_ H]. discriminate.
  - now apply NoDup_filter.
Qed.

Lemma add_keys ks cols :
  fold_left
    (fun cols k => if existsb (String.eqb k) cols then cols else cols ++ [k])
    ks cols
  = cols ++ first_seen (filter (unseen cols) ks).
Proof.
  revert cols. induction ks as [|k ks IH]; intros cols; simpl.
  - now rewrite app_nil_r.
  - rewrite IH. unfold unseen at 2.
    destruct (existsb (String.eqb k) cols) eqn:Hk; simpl; [reflexivity|].
    rewrite <- app_assoc. simpl. do 2 f_equal.
    rewrite <- first_seen_filter. f_equal.
    rewrite <- filter_both. apply filter_ext. intros y.
    unfold unseen. rewrite existsb_app. simpl.
    now rewrite orb_false_r, negb_orb.
Qed.

Lemma add_columns_concat data cols :
  fold_left add_columns data cols
  = cols ++ first_seen (filter (unseen cols) (List.concat (map keys data))).
Proof.
  rewrite <- add_keys. revert cols.
  induction data as [|d data IH]; intros cols; simpl; [reflexivity|].
  rewrite fold_left_app. apply IH.
Qed.

(** The columns pandas computes are the ordered union of the keys. *)
Lemma columns_DataFrame data : columns (DataFrame data) = ordered_union data.
Proof.
  unfold DataFrame, ordered_union. simpl. rewrite add_columns_concat. simpl.
  f_equal. induction (List.concat (map keys data)) as [|x l IH];
    simpl; [reflexivity | now rewrite IH].
Qed.

Lemma Forall2_map_same {A B} (R : A -> B -> Prop) (f : A -> B) l :
  (forall a, R a (f a)) -> Forall2 R l (map f l).
Proof. intros H. induction l; simpl; constructor; auto. Qed.

Lemma rows_DataFrame data :
  rows (DataFrame data) = map (row_of (ordered_union data)) data.
Proof. rewrite <- columns_DataFrame. reflexivity. Qed.

Lemma ordered_union_In data c :
  In c (ordered_union data) <-> exists d, In d data /\ In c (keys d).
Proof.
  unfold ordered_union. rewrite first_seen_In, in_concat. split.
  - intros [ks [Hks Hc]]. apply in_map_iff in Hks.
    destruct Hks as [d [<- Hd]]. eauto.
  - intros [d [Hd Hc]]. exists (keys d). split; [now apply in_map | exact Hc].
Qed.

End FrameFacts.
Import FrameFacts.

(** ** Running the program *)

Module ProgramFacts.

Local Open Scope prog_scope.

Lemma read_attempts_app l l' :
  read_attempts (l ++ l') = read_attempts l ++ read_attempts l'.
Proof.
  induction l as [|e l IH]; simpl; [reflexivity|].
  destruct e; simpl; rewrite IH; reflexivity.
Qed.

Lemma conversions_app l l' :
  conversions (l ++ l') = conversions l ++ conversions l'.
Proof.
  induction l as [|e l IH]; simpl; [reflexivity|].
  destruct e; simpl; rewrite IH; reflexivity.
Qed.

Lemma finished_app l l' : finished (l ++ l') = finished l + finished l'.
Proof.
  induction l as [|e l IH]; simpl; [reflexivity|].
  destruct e; simpl; rewrite IH; reflexivity.
Qed.

Lemma inner_silent evs :
  Forall inner_event evs ->
  read_attempts evs = [] /\ conversions evs = [] /\ finished evs = 0.
Proof.
  induction 1 as [|e l He _ IH]; simpl; [auto|].
  destruct e; simpl in He; try contradiction; exact IH.
Qed.

Section WithCollaborators.
Context {store parquet : Type} {minio : Collaborators store parquet}.

Lemma quiet_ret {A} (a : A) : quiet (ret a : M store A).
Proof. intros st. exists []. simpl. now rewrite app_nil_r. Qed.

Lemma quiet_lift {A} (r : result A) : quiet (lift r : M store A).
Proof. intros st. exists []. simpl. now rewrite app_nil_r. Qed.

Lemma quiet_reading {A} (call : store -> result A) : quiet (reading call).
Proof. intros st. exists []. simpl. now rewrite app_nil_r. Qed.

Lemma quiet_writing (call : store -> result store) : quiet (writing call).
Proof.
  intros st. exists []. unfold writing.
  destruct (call (st_store st)); simpl; now rewrite app_nil_r.
Qed.

Lemma quiet_print e : inner_event e -> quiet (print e : M store unit).
Proof. intros He st. exists [e]. simpl. auto. Qed.

Lemma quiet_bind {A B} (m : M store A) (k : A -> M store B) :
  quiet m -> (forall a, quiet (k a)) -> quiet (bind m k).
Proof.
  intros Hm Hk st. unfold bind.
  destruct (Hm st) as [evs [E F]].
  destruct (m st) as [[a|e] st1]; simpl in *.
  - destruct (Hk a st1) as [evs' [E' F']].
    exists (evs ++ evs'). rewrite E', E, app_assoc.
    split; [reflexivity | now apply Forall_app].
  - eauto.
Qed.

Lemma quiet_try_except {A} (body : M store A) handler :
  quiet body -> (forall e, quiet (handler e)) ->
  quiet (try_except body handler).
Proof.
  intros Hm Hk st. unfold try_except.
  destruct (Hm st) as [evs [E F]].
  destruct (body st) as [[a|e] st1]; simpl in *.
  - eauto.
  - destruct (Hk e st1) as [evs' [E' F']].
    exists (evs ++ evs'). rewrite E', E, app_assoc.
    split; [reflexivity | now apply Forall_app].
Qed.

Create HintDb quiet.
#[local] Hint Resolve quiet_ret quiet_lift quiet_reading quiet_writing
  quiet_print : quiet.

Ltac quiet_steps :=
  repeat first
    [ apply quiet_bind; [|intros ?]
    | apply quiet_try_except; [|intros ?]
    | solve [auto with quiet]
    | apply quiet_print; exact I ].

(** A caught body never raises. *)
Lemma total_try_except {A} (body : M store A) handler :
  (forall e, total (handler e)) -> total (try_except body handler).
Proof.
  intros H st. unfold try_except.
  destruct (body st) as [[a|e] st1]; simpl; [eauto | apply H].
Qed.

Lemma total_print_then {A} e (a : A) : total (print e ;;; ret a : M store A).
Proof. intros st. now exists a. Qed.

Lemma flatten_json_string_runs v sep (st : state store) :
  flatten_json_string (Some (Text v)) sep st
  = (Returned (Some (_flatten v "" sep)), st).
Proof. reflexivity. Qed.

Lemma flatten_records_runs data :
  forall flattened_data (st : state store),
    flatten_records data flattened_data st
    = (Returned
         (flattened_data ++ map (fun r => _flatten r "" "_") data), st).
Proof.
  induction data as [|r data IH]; intros acc st; simpl.
  - now rewrite app_nil_r.
  - unfold bind. rewrite flatten_json_string_runs, IH, <- app_assoc.
    reflexivity.
Qed.

(** Assembling an array flattens every element into one frame. *)
Lemma assemble_array records (st : state store) :
  assemble (Some (Text (JArr records))) st
  = (Returned (DataFrame (map (fun r => _flatten r "" "_") records)), st).
Proof.
  unfold assemble, bind. simpl. now rewrite flatten_records_runs.
Qed.

Lemma quiet_flatten_json_string json_str sep :
  quiet (flatten_json_string json_str sep : M store _).
Proof. unfold flatten_json_string. quiet_steps. Qed.

Lemma quiet_flatten_records data :
  forall acc, quiet (flatten_records data acc : M store _).
Proof.
  induction data as [|r data IH]; intros acc; simpl.
  - apply quiet_ret.
  - apply quiet_bind; [apply quiet_flatten_json_string|].
    intros [flat|]; apply IH.
Qed.

Lemma quiet_json_string_to_parquet_minio json_str bucket_name object_name :
  quiet (json_string_to_parquet_minio json_str bucket_name object_name).
Proof.
  unfold json_string_to_parquet_minio, assemble, upload.
  apply quiet_try_except; [|intros e; apply quiet_print; exact I].
  apply quiet_bind.
  - apply quiet_bind; [apply quiet_lift | intros data].
    apply quiet_bind.
    + destruct data; quiet_steps.
    + intros data'. apply quiet_bind; [apply quiet_lift | intros records].
      apply quiet_bind; [apply quiet_flatten_records | intros; apply quiet_ret].
  - intros df. apply quiet_bind; [apply quiet_lift | intros buf].
    apply quiet_bind; [apply quiet_reading | intros present].
    apply quiet_bind; [destruct present; auto with quiet|intros _].
    apply quiet_bind; [apply quiet_writing | intros _].
    apply quiet_print; exact I.
Qed.

Lemma total_json_string_to_parquet_minio json_str bucket_name object_name :
  total (json_string_to_parquet_minio json_str bucket_name object_name).
Proof.
  apply total_try_except. intros e st. now exists tt.
Qed.

Lemma quiet_read_json_from_minio bucket_name object_name :
  quiet (read_json_from_minio bucket_name object_name).
Proof. unfold read_json_from_minio. quiet_steps. Qed.

Lemma total_read_json_from_minio bucket_name object_name :
  total (read_json_from_minio bucket_name object_name).
Proof. apply total_try_except. intros e. apply total_print_then. Qed.

Lemma total_list_objects_in_minio_folder bucket_name prefix :
  total (list_objects_in_minio_folder bucket_name prefix).
Proof. apply total_try_except. intros e. apply total_print_then. Qed.

End WithCollaborators.

End ProgramFacts.
Import ProgramFacts.

(** ** The loop of [main] *)

Module LoopFacts.

Section WithCollaborators.
Context {store parquet : Type} {minio : Collaborators store parquet}.

(** One turn of the loop returns, whatever the collaborators do, and
    prints its three lines around those of the helpers. *)
Lemma process_object_runs object_name (st : state store) :
  exists st' evs,
    process_object object_name st = (Returned tt, st') /\
    st_log st' = st_log st ++ evs /\
    read_attempts evs = [object_name] /\
    conversions evs
    = [(object_name, destination_object_name object_name)] /\
    finished evs = 1.
Proof.
  unfold process_object, bind.
  set (dst := destination_object_name object_name).
  set (st1 := snd (print (Reading object_name) st)).
  change (print (Reading object_name) st) with (Returned tt, st1).
  destruct (total_read_json_from_minio source_bucket_name object_name st1)
    as [json_str R].
  destruct (quiet_read_json_from_minio source_bucket_name object_name st1)
    as [evs1 [L1 Q1]].
  destruct (read_json_from_minio source_bucket_name object_name st1)
    as [r st2]. simpl in R, L1. subst r.
  set (st3 := snd (print (Converting object_name dst) st2)).
  change (print (Converting object_name dst) st2) with (Returned tt, st3).
  destruct (total_json_string_to_parquet_minio json_str
              destination_bucket_name dst st3) as [[] R3].
  destruct (quiet_json_string_to_parquet_minio json_str
              destination_bucket_name dst st3) as [evs2 [L3 Q3]].
  destruct (json_string_to_parquet_minio json_str destination_bucket_name
              dst st3) as [r st4]. simpl in R3, L3. subst r.
  eexists. exists (Reading object_name :: evs1
                   ++ Converting object_name dst :: evs2 ++ [Elapsed]).
  split; [reflexivity|].
  apply inner_silent in Q1. destruct Q1 as [Q1r [Q1c Q1f]].
  apply inner_silent in Q3. destruct Q3 as [Q3r [Q3c Q3f]].
  split; [|split; [|split]].
  - simpl. rewrite L3. simpl. rewrite L1. simpl.
    rewrite <- !app_assoc. reflexivity.
  - simpl. rewrite read_attempts_app. simpl.
    rewrite read_attempts_app, Q1r, Q3r. reflexivity.
  - simpl. rewrite conversions_app. simpl.
    rewrite conversions_app, Q1c, Q3c. reflexivity.
  - simpl. rewrite finished_app. simpl.
    rewrite finished_app, Q1f, Q3f. reflexivity.
Qed.

(** The loop takes its turn for every object, in order. *)
Lemma for_each_process_object_runs objects :
  forall st : state store,
  exists st' evs,
    for_each objects process_object st = (Returned tt, st') /\
    st_log st' = st_log st ++ evs /\
    read_attempts evs = objects /\
    conversions evs
    = map (fun n => (n, destination_object_name n)) objects /\
    finished evs = List.length objects.
Proof.
  induction objects as [|n objects IH]; intros st; simpl.
  - exists st, []. rewrite app_nil_r. repeat split.
  - unfold bind.
    destruct (process_object_runs n st) as [st1 [evs1 [R [L [A [C F]]]]]].
    rewrite R.
    destruct (IH st1) as [st2 [evs2 [R2 [L2 [A2 [C2 F2]]]]]].
    exists st2, (evs1 ++ evs2). split; [exact R2|].
    rewrite L2, L, <- app_assoc, read_attempts_app, conversions_app,
      finished_app, A, A2, C, C2, F, F2.
    repeat split.
Qed.

(** What the listing step hands to the loop. *)
Lemma list_objects_in_minio_folder_runs bucket_name prefix
    (st : state store) :
  list_objects_in_minio_folder bucket_name prefix st
  = match list_objects bucket_name prefix (st_store st) with
    | Returned objects => (Returned objects, st)
    | Raised e => (Returned [], logged st [ErrorListing e])
    end.
Proof.
  unfold list_objects_in_minio_folder, try_except, reading.
  destruct (list_objects bucket_name prefix (st_store st)); reflexivity.
Qed.

Lemma main_runs (st : state store) :
  exists st', main st = (Returned tt, st').
Proof.
  unfold main, bind. rewrite list_objects_in_minio_folder_runs.
  destruct (list_objects source_bucket_name partition_prefix (st_store st))
    as [objects|e]; [|eexists; reflexivity].
  cbn [print].
  match goal with
  | |- context [for_each ?l process_object ?s] =>
      destruct (for_each_process_object_runs l s) as [st' [evs [R _]]]
  end.
  rewrite R. eexists; reflexivity.
Qed.

End WithCollaborators.

End LoopFacts.
Import LoopFacts.

(** ** The assembler, step by step *)

Module AssembleFacts.

Section WithCollaborators.
Context {store parquet : Type} {minio : Collaborators store parquet}.

(** An object goes through [data["results"][0]]; its other fields are
    never looked at. *)
Lemma assemble_object fields (st : state store) :
  assemble (Some (Text (JObj fields))) st
  = match results_first fields with
    | Returned first => (Returned (DataFrame [_flatten first "" "_"]), st)
    | Raised e => (Raised e, st)
    end.
Proof.
  unfold assemble, bind. simpl.
  destruct (results_first fields) as [first|e]; reflexivity.
Qed.

(** A failure before the upload is printed and nothing else happens. *)
Lemma json_string_to_parquet_minio_raised json_str bucket_name object_name
    (st st' : state store) e :
  assemble json_str st = (Raised e, st') ->
  json_string_to_parquet_minio json_str bucket_name object_name st
  = (Returned tt, logged st' [ErrorConverting e]).
Proof.
  intros H. unfold json_string_to_parquet_minio, try_except, bind.
  rewrite H. reflexivity.
Qed.

(** Once the frame is there, the rest is the upload under the same
    handler. *)
Lemma json_string_to_parquet_minio_assembled json_str bucket_name
    object_name (st : state store) df :
  assemble json_str st = (Returned df, st) ->
  json_string_to_parquet_minio json_str bucket_name object_name st
  = try_except (upload df bucket_name object_name)
      (fun e => print (ErrorConverting e)) st.
Proof.
  intros H. unfold json_string_to_parquet_minio, try_except, bind.
  rewrite H. reflexivity.
Qed.


End WithCollaborators.

Lemma last_value_later {V} (before between after : list (string * V)) k x y :
  ~ In k (keys after) ->
  last_value k (before ++ (k, x) :: between ++ (k, y) :: after) = Some y.
Proof.
  intros H. unfold last_value.
  replace (before ++ (k, x) :: between ++ (k, y) :: after)
    with ((before ++ (k, x) :: between) ++ [(k, y)] ++ after)
    by (rewrite <- !app_assoc; reflexivity).
  rewrite !rev_app_distr, <- app_assoc, getitem_app.
  assert (N : getitem (rev after) k = None).
  { apply getitem_None. unfold keys. rewrite map_rev, <- in_rev. exact H. }
  rewrite N. simpl. now rewrite String.eqb_refl.
Qed.

End AssembleFacts.
Import AssembleFacts.

(** ** File names *)

Module NameFacts.

(** [s.split("/")[-1]] of a name without a slash is the name. *)
Lemma split_no_slash s :
  (forall c, In c (list_ascii_of_string s) -> c <> "/"%char) ->
  split "/" s = [s].
Proof.
  induction s as [|c s IH]; intros H; simpl; [reflexivity|].
  destruct (Ascii.eqb_spec c "/"%char) as [E|_].
  - exfalso. apply (H c); [now left | exact E].
  - rewrite IH; [reflexivity|]. intros c' Hc'. apply H. now right.
Qed.

(** On a name whose only dot is the one of a final [.json], [replace]
    swaps the extension and keeps the stem. *)
Lemma replace_extension stem :
  (forall c, In c (list_ascii_of_string stem) -> c <> "."%char) ->
  (replace ".json" ".parquet" (stem ++ ".json") = stem ++ ".parquet")%string.
Proof.
  unfold replace. induction stem as [|c stem IH]; intros H; [reflexivity|].
  assert (Hc : c <> "."%char) by (apply H; now left).
  cbn [append replace_from String.prefix].
  destruct (ascii_dec "."%char c) as [E|_]; [congruence|].
  rewrite IH; [reflexivity|]. intros c' Hc'. apply H. now right.
Qed.

Lemma split_cons sep s : exists h t, split sep s = h :: t.
Proof.
  destruct s as [|c s]; simpl; [eauto|].
  destruct (Ascii.eqb c sep); [eauto|].
  destruct (split sep s); eauto.
Qed.

Lemma split_at_separator sep a b :
  split sep (a ++ String sep b) = split sep a ++ split sep b.
Proof.
  induction a as [|c a IH]; simpl.
  - now rewrite Ascii.eqb_refl.
  - destruct (Ascii.eqb c sep); [now rewrite IH|].
    rewrite IH. destruct (split_cons sep a) as [h [t ->]]. reflexivity.
Qed.

Lemma chars_of_append a b :
  list_ascii_of_string (a ++ b)
  = list_ascii_of_string a ++ list_ascii_of_string b.
Proof. induction a as [|c a IH]; simpl; [reflexivity | now rewrite IH]. Qed.

(** The destination of a plain [stem.json] under any folder. *)
Lemma destination_of_plain_name folder stem :
  (forall c, In c (list_ascii_of_string stem) ->
             c <> "."%char /\ c <> "/"%char) ->
  (destination_object_name (folder ++ "/" ++ stem ++ ".json")
   = partition_prefix ++ stem ++ ".parquet")%string.
Proof.
  intros H. unfold destination_object_name, last_item.
  change (folder ++ "/" ++ stem ++ ".json")%string
    with (folder ++ String "/" (stem ++ ".json"))%string.
  rewrite split_at_separator, (split_no_slash (stem ++ ".json")).
  - rewrite last_last, replace_extension; [reflexivity|].
    intros c Hc. now apply H.
  - intros c Hc. rewrite chars_of_append in Hc.
    apply in_app_or in Hc. destruct Hc as [Hc|Hc].
    + now apply H.
    + simpl in Hc. intros ->. repeat (destruct Hc as [Hc|Hc]; [discriminate|]).
      exact Hc.
Qed.

End NameFacts.
Import NameFacts.

(** * The properties of the specification *)

Module Claims.

Import MemStore.

(** ** Flattener *)

(** C8. Flattening the document [{"a": {"b": 1, "c": [2,3]}}] with
    separator [_] yields exactly [{"a_b": 1, "a_c_0": 2, "a_c_1": 3}],
    and printing nothing. *)
Theorem flatten_nested_document :
  forall {store} (st : state store),
    flatten_json_string
      (Some (Text (JObj [("a", JObj [("b", JNum 1);
                                     ("c", JArr [JNum 2; JNum 3])])])))
      "_" st
    = (Returned (Some [("a_b", JNum 1); ("a_c_0", JNum 2); ("a_c_1", JNum 3)]),
       st).
Proof. intros store st. reflexivity. Qed.

(** C9. Flattening a single-level object whose values are all scalars
    yields the same object: the same keys, in the same order, with the
    same values, whatever the separator is. *)
Theorem flatten_flat_object_unchanged :
  forall {store} (fields : list (string * json)) (sep : string)
         (st : state store),
    NoDup (keys fields) ->
    Forall (fun kv => is_scalar (snd kv) = true) fields ->
    flatten_json_string (Some (Text (JObj fields))) sep st
    = (Returned (Some fields), st).
Proof.
  intros store fields sep st Hnd Hsc.
  rewrite flatten_json_string_runs, flatten_leaf_entries,
    leaf_entries_flat by assumption.
  rewrite (update_disjoint fields []) by exact Hnd.
  reflexivity.
Qed.

Lemma flatten_flat_object_unchanged_witness :
  flatten_json_string
    (Some (Text (JObj [("name", JStr "Ann"); ("age", JNum 30);
                       ("member", JBool true); ("phone", JNull)])))
    "_" (fresh [])
  = (Returned (Some [("name", JStr "Ann"); ("age", JNum 30);
                     ("member", JBool true); ("phone", JNull)]),
     fresh []).
Proof.
  apply flatten_flat_object_unchanged.
  - repeat constructor; simpl; intuition discriminate.
  - repeat constructor.
Defined.

(** C5, as stated, fails on a document in which two leaf paths are
    joined into the same key: two scalar leaves, one entry. *)
Lemma colliding_leaves_share_an_entry :
  count_leaves (JObj [("a", JObj [("b", JNum 1)]); ("a_b", JNum 2)]) = 2 /\
  flatten_json_string
    (Some (Text (JObj [("a", JObj [("b", JNum 1)]); ("a_b", JNum 2)])))
    "_" (fresh [])
  = (Returned (Some [("a_b", JNum 2)]), fresh []).
Proof. split; reflexivity. Qed.

(** C5 (amended). For every parseable input the flattener returns a
    mapping with at most one entry per scalar leaf, with exactly one per
    leaf precisely when no two leaf paths are joined into the same key;
    no entry's value is an object or an array. *)
Theorem flatten_entries_and_leaves :
  forall {store} (v : json) (sep : string) (st : state store),
  exists flat,
    flatten_json_string (Some (Text v)) sep st = (Returned (Some flat), st) /\
    List.length flat <= count_leaves v /\
    (List.length flat = count_leaves v <->
     NoDup (keys (leaf_entries v "" sep))) /\
    Forall (fun kv => is_scalar (snd kv) = true) flat.
Proof.
  intros store v sep st. exists (_flatten v "" sep).
  split; [apply flatten_json_string_runs|].
  split; [apply flatten_length_le|].
  split; [apply flatten_length_eq | apply flatten_scalar].
Qed.

(** C10. When two leaf paths of one document are joined into the same
    key, the flattener raises nothing and its mapping holds that key
    once, with the value of the leaf met last. *)
Theorem colliding_keys_last_writer_wins :
  forall {store} (v : json) (sep : string) (st : state store)
         (before between after : list (string * json)) (k : string)
         (x y : json),
    leaf_entries v "" sep = before ++ (k, x) :: between ++ (k, y) :: after ->
    ~ In k (keys after) ->
    exists flat,
      flatten_json_string (Some (Text v)) sep st
      = (Returned (Some flat), st) /\
      getitem flat k = Some y /\
      count_occ string_dec (keys flat) k = 1 /\
      NoDup (keys flat).
Proof.
  intros store v sep st before between after k x y Hl Hk.
  exists (_flatten v "" sep).
  split; [apply flatten_json_string_runs|].
  assert (G : getitem (_flatten v "" sep) k = Some y).
  { rewrite flatten_leaf_entries, getitem_update, Hl.
    now rewrite last_value_later. }
  pose proof (flatten_NoDup v "" sep) as Hnd.
  split; [exact G|]. split; [|exact Hnd].
  apply NoDup_count_occ'; [exact Hnd|].
  apply getitem_In in G.
  change k with (fst (k, y)). now apply in_map.
Qed.

Lemma colliding_keys_last_writer_wins_witness :
  exists flat,
    flatten_json_string
      (Some (Text (JObj [("a", JObj [("b", JNum 1)]); ("a_b", JNum 2)])))
      "_" (fresh [])
    = (Returned (Some flat), fresh []) /\
    getitem flat "a_b" = Some (JNum 2) /\
    count_occ string_dec (keys flat) "a_b" = 1 /\
    NoDup (keys flat).
Proof.
  apply (colliding_keys_last_writer_wins
           (JObj [("a", JObj [("b", JNum 1)]); ("a_b", JNum 2)]) "_"
           (fresh []) [] [] [] "a_b" (JNum 1) (JNum 2)).
  - reflexivity.
  - simpl. tauto.
Defined.

(** ** Record assembler *)

(** C4. Assembling a sequence of records gives the frame whose columns
    are the ordered union of the flattened keys of all records, in
    first-seen order, with one row per record and one cell per column,
    and in which the cell of every column a record has no key for is the
    missing one (Null in the output); so [[{"x":1},{"y":2}]] gives
    columns [x, y] and the rows [1, Null] and [Null, 2]. *)
Theorem assembled_batch_is_padded_union :
  forall {store} (records : list json) (st : state store),
  exists df,
    assemble (Some (Text (JArr records))) st = (Returned df, st) /\
    columns df = ordered_union (map (fun r => _flatten r "" "_") records) /\
    NoDup (columns df) /\
    (forall c, In c (columns df) <->
               exists r, In r records /\ In c (keys (_flatten r "" "_"))) /\
    Forall2
      (fun r row =>
         Forall2
           (fun c x => getitem (_flatten r "" "_") c = None -> x = Missing)
           (columns df) row)
      records (rows df) /\
    assemble
      (Some (Text (JArr [JObj [("x", JNum 1)]; JObj [("y", JNum 2)]]))) st
    = (Returned {| columns := ["x"; "y"];
                   rows := [[Filled (JNum 1); Missing];
                            [Missing; Filled (JNum 2)]] |}, st).
Proof.
  intros store records st.
  exists (DataFrame (map (fun r => _flatten r "" "_") records)).
  split; [apply assemble_array|].
  split; [apply columns_DataFrame|].
  split; [rewrite columns_DataFrame; apply first_seen_NoDup|].
  split.
  - intros c. rewrite columns_DataFrame, ordered_union_In. split.
    + intros [d [Hd Hc]]. apply in_map_iff in Hd.
      destruct Hd as [r [<- Hr]]. eauto.
    + intros [r [Hr Hc]]. exists (_flatten r "" "_").
      split; [|exact Hc].
      apply in_map_iff. eauto.
  - split; [|reflexivity].
    unfold DataFrame. simpl. rewrite map_map.
    apply Forall2_map_same. intros r.
    unfold row_of. apply Forall2_map_same. intros c H. now rewrite H.
Qed.

(** C1, as stated, fails on an object without [results]: no batch is
    built from the object, the failure is printed and nothing is
    written. *)
Lemma object_without_results_is_rejected :
  assemble (Some (Text (JObj [("x", JNum 1)]))) (fresh [])
  = (Raised KeyError, fresh []) /\
  json_string_to_parquet_minio (minio := mem)
    (Some (Text (JObj [("x", JNum 1)]))) "processed" "x.parquet" (fresh [])
  = (Returned tt, {| st_store := []; st_log := [ErrorConverting KeyError] |}).
Proof. split; reflexivity. Qed.

(** C1 (amended). An object that does not hold an array under [results]
    is never taken as the record itself. When [results] is missing, or
    holds Null, a Bool, a Number, an Object or the empty String, the
    lookup [data["results"][0]] raises (a key error, a type error or an
    index error): the error is caught and printed and the store is left
    as it was. When [results] holds a non-empty String, the one record is
    the first character of that String. *)
Theorem object_without_results_array :
  forall {store parquet} {minio : Collaborators store parquet}
         (fields : list (string * json)) (bucket_name object_name : string)
         (st : state store),
    (forall elems, getitem fields "results" <> Some (JArr elems)) ->
    let fails_with (e : exn) :=
      assemble (Some (Text (JObj fields))) st = (Raised e, st) /\
      json_string_to_parquet_minio (Some (Text (JObj fields)))
        bucket_name object_name st
      = (Returned tt, logged st [ErrorConverting e]) in
    match getitem fields "results" with
    | Some (JStr (String c _)) =>
        assemble (Some (Text (JObj fields))) st
        = (Returned {| columns := [""];
                       rows := [[Filled (JStr (String c EmptyString))]] |}, st)
    | Some (JStr EmptyString) => fails_with IndexError
    | None | Some (JObj _) => fails_with KeyError
    | Some JNull | Some (JBool _) | Some (JNum _) => fails_with TypeError
    | Some (JArr _) => False
    end.
Proof.
  intros store parquet minio fields bucket_name object_name st H fails_with.
  pose proof (assemble_object fields st) as A.
  unfold results_first in A. subst fails_with.
  destruct (getitem fields "results") as [[| b | n | s | elems | sub]|] eqn:G;
    try (split; [exact A | now apply json_string_to_parquet_minio_raised]).
  - destruct s as [|c s].
    + split; [exact A | now apply json_string_to_parquet_minio_raised].
    + exact A.
  - now apply (H elems).
Qed.

Lemma object_without_results_array_witness :
  (assemble (Some (Text (JObj [("x", JNum 1)]))) (fresh [])
   = (Raised KeyError, fresh []) /\
   json_string_to_parquet_minio (minio := mem)
     (Some (Text (JObj [("x", JNum 1)]))) "processed" "x.parquet" (fresh [])
   = (Returned tt, logged (fresh []) [ErrorConverting KeyError])) /\
  assemble (Some (Text (JObj [("results", JStr "ab")]))) (fresh [])
  = (Returned {| columns := [""]; rows := [[Filled (JStr "a")]] |}, fresh []) /\
  (assemble (Some (Text (JObj [("results", JStr "")]))) (fresh [])
   = (Raised IndexError, fresh []) /\
   json_string_to_parquet_minio (minio := mem)
     (Some (Text (JObj [("results", JStr "")]))) "processed" "x.parquet"
     (fresh [])
   = (Returned tt, logged (fresh []) [ErrorConverting IndexError])).
Proof.
  split; [|split].
  - refine (object_without_results_array (minio := mem) [("x", JNum 1)]
              "processed" "x.parquet" (fresh []) _).
    intros elems. simpl. discriminate.
  - refine (object_without_results_array (minio := mem)
              [("results", JStr "ab")] "processed" "x.parquet" (fresh []) _).
    intros elems. simpl. discriminate.
  - refine (object_without_results_array (minio := mem)
              [("results", JStr "")] "processed" "x.parquet" (fresh []) _).
    intros elems. simpl. discriminate.
Defined.




(** ** Partition pipeline *)

(** C6: the file name is rewritten by [replace], which changes every
    [.json] in it, not only the extension. *)
Theorem destination_replaces_every_json :
  destination_object_name "year=2025/month=12/day=19/hour=14/people.json.json"
  = "year=2025/month=12/day=19/hour=14/people.parquet.parquet" /\
  destination_object_name "year=2025/month=12/day=19/hour=14/people.json.json"
  <> "year=2025/month=12/day=19/hour=14/people.json.parquet" /\
  destination_object_name "year=2025/month=12/day=19/hour=14/person_0329.json"
  = "year=2025/month=12/day=19/hour=14/person_0329.parquet".
Proof.
  split; [reflexivity|]. split; [|reflexivity].
  vm_compute. discriminate.
Qed.

(** C3, as stated, fails when the listing fails: on a store without the
    source bucket the run returns normally, having printed the error
    and an empty list of files. *)
Lemma failed_listing_completes :
  list_objects (Collaborators := mem) source_bucket_name partition_prefix []
  = Raised (LibraryError "NoSuchBucket") /\
  main (minio := mem) (fresh [])
  = (Returned tt,
     {| st_store := [];
        st_log := [ErrorListing (LibraryError "NoSuchBucket");
                   FilesToBeTransformed []] |}).
Proof. split; reflexivity. Qed.

(** C3 (amended). If the listing step fails, the failure is caught and
    printed inside [list_objects_in_minio_folder], which returns the
    empty list: the run returns normally, raises nothing, takes no turn
    of the loop and leaves the store as it was. No run fails as a whole,
    whatever the collaborators do. *)
Theorem listing_failure_is_caught :
  forall {store parquet} {minio : Collaborators store parquet}
         (st : state store) (e : exn),
    list_objects source_bucket_name partition_prefix (st_store st) = Raised e ->
    main st = (Returned tt, logged st [ErrorListing e; FilesToBeTransformed []])
    /\ forall st0 : state store, exists st', main st0 = (Returned tt, st').
Proof.
  intros store parquet minio st e H. split; [|apply main_runs].
  unfold main, bind. rewrite list_objects_in_minio_folder_runs, H.
  unfold logged. simpl. rewrite <- app_assoc. reflexivity.
Qed.

Lemma listing_failure_is_caught_witness :
  main (minio := mem) (fresh [])
  = (Returned tt,
     logged (fresh [])
       [ErrorListing (LibraryError "NoSuchBucket"); FilesToBeTransformed []])
  /\ forall st0 : state store,
       exists st', main (minio := mem) st0 = (Returned tt, st').
Proof.
  apply (listing_failure_is_caught (minio := mem)). reflexivity.
Defined.

(** A run over two objects on the in-memory store: the first is not
    JSON, the second is converted all the same. *)
Example bad_object_then_good_object :
  let source :=
    [("raw",
      [("year=2025/month=12/day=19/hour=14/a.json", Raw (Malformed "{"));
       ("year=2025/month=12/day=19/hour=14/b.json",
        Raw (Text (JObj [("results",
                          JArr [JObj [("name", JObj [("first", JStr "Ann")])];
                                JObj [("name", JObj [("first", JStr "Bob")])]])])))])]
  in
  fst (main (minio := mem) (fresh source)) = Returned tt /\
  getitem (st_store (snd (main (minio := mem) (fresh source)))) "processed"
  = Some [("year=2025/month=12/day=19/hour=14/b.parquet",
           Columnar {| columns := ["name_first"];
                       rows := [[Filled (JStr "Ann")]] |})] /\
  read_attempts (st_log (snd (main (minio := mem) (fresh source))))
  = ["year=2025/month=12/day=19/hour=14/a.json";
     "year=2025/month=12/day=19/hour=14/b.json"].
Proof. vm_compute. repeat split. Qed.

(** C7. Whatever fails while one object is processed (the read, the
    parse, the encoding, the write), the run returns normally and the
    loop has taken its full turn for every listed object, in order: one
    read attempt, one conversion to the derived destination and one
    elapsed-time line per object. *)
Theorem failures_never_abort_the_batch :
  forall {store parquet} {minio : Collaborators store parquet}
         (st : state store),
  exists objects st' evs,
    fst (list_objects_in_minio_folder source_bucket_name partition_prefix st)
    = Returned objects /\
    main st = (Returned tt, st') /\
    st_log st' = st_log st ++ evs /\
    read_attempts evs = objects /\
    conversions evs = map (fun n => (n, destination_object_name n)) objects /\
    finished evs = List.length objects.
Proof.
  intros store parquet minio st.
  unfold main, bind. rewrite list_objects_in_minio_folder_runs.
  destruct (list_objects source_bucket_name partition_prefix (st_store st))
    as [objects|e].
  - exists objects. cbn [print fst].
    match goal with
    | |- context [for_each objects process_object ?s] =>
        destruct (for_each_process_object_runs objects s)
          as [st' [evs [R [L [A [C F]]]]]]
    end.
    exists st', (FilesToBeTransformed objects :: evs).
    rewrite R. simpl in L. rewrite L, <- app_assoc.
    repeat split; assumption.
  - exists [], (logged st [ErrorListing e; FilesToBeTransformed []]),
      [ErrorListing e; FilesToBeTransformed []].
    unfold logged. simpl. rewrite <- app_assoc. repeat split.
Qed.

End Claims.

(** * Further properties of the code *)

(** ** Strings and indices *)

Module TextFacts.

Lemma prefix_refl s : String.prefix s s = true.
Proof.
  induction s as [|c s IH]; simpl; [reflexivity|].
  destruct (ascii_dec c c); [exact IH | congruence].
Qed.

Lemma prefix_append a b : String.prefix a (a ++ b) = true.
Proof.
  induction a as [|c a IH]; simpl; [now destruct b|].
  destruct (ascii_dec c c); [exact IH | congruence].
Qed.

Lemma prefix_trans a b c :
  String.prefix a b = true -> String.prefix b c = true ->
  String.prefix a c = true.
Proof.
  revert b c. induction a as [|x a IH]; intros b c; simpl;
    [now destruct c|].
  destruct b as [|y b]; [discriminate|]. simpl.
  destruct (ascii_dec x y) as [->|]; [|discriminate].
  destruct c as [|z c]; simpl; [discriminate|].
  destruct (ascii_dec y z) as [->|]; [|discriminate].
  apply IH.
Qed.

Lemma prefix_new_key parent_key sep k :
  String.prefix parent_key (new_key parent_key sep k) = true.
Proof.
  destruct parent_key as [|c p]; [now destruct k|].
  unfold new_key. apply prefix_append.
Qed.

Lemma append_cancel a x y : (a ++ x = a ++ y)%string -> x = y.
Proof.
  induction a as [|c a IH]; simpl; [auto|].
  intros [= H]. auto.
Qed.

Lemma append_assoc a b c : (a ++ (b ++ c) = (a ++ b) ++ c)%string.
Proof. induction a as [|x a IH]; simpl; [reflexivity | now rewrite IH]. Qed.

Lemma append_empty a : (a ++ "" = a)%string.
Proof. induction a as [|x a IH]; simpl; [reflexivity | now rewrite IH]. Qed.

Lemma to_uint_not_nil n : Nat.to_uint n <> Decimal.Nil.
Proof.
  intros H. pose proof (DecimalNat.Unsigned.of_to n) as E.
  rewrite H in E. simpl in E. subst n. discriminate H.
Qed.

(** [str(i)] tells indices apart. *)
Lemma str_of_nat_injective i j : str_of_nat i = str_of_nat j -> i = j.
Proof.
  unfold str_of_nat. intros H.
  apply (f_equal NilZero.uint_of_string) in H.
  rewrite !NilZero.usu in H by apply to_uint_not_nil.
  injection H as H. now apply DecimalNat.Unsigned.to_uint_inj.
Qed.

Lemma digits_no_underscore d :
  ~ In "_"%char (list_ascii_of_string (NilEmpty.string_of_uint d)).
Proof.
  induction d; simpl; intros H;
    try (destruct H as [H|H]; [discriminate H | auto]); auto.
Qed.

Lemma str_of_nat_no_underscore i :
  ~ In "_"%char (list_ascii_of_string (str_of_nat i)).
Proof.
  unfold str_of_nat, NilZero.string_of_uint.
  destruct (Nat.to_uint i) eqn:E; try apply digits_no_underscore.
  simpl. intros [H|[]]. discriminate H.
Qed.

Lemma str_of_nat_not_empty i : str_of_nat i <> EmptyString.
Proof.
  unfold str_of_nat, NilZero.string_of_uint.
  destruct (Nat.to_uint i); simpl; discriminate.
Qed.

(** Two keys free of the separator that agree up to the next separator
    are the same key. *)
Lemma key_before_separator (k k' t t' : string) :
  ~ In "_"%char (list_ascii_of_string k) ->
  ~ In "_"%char (list_ascii_of_string k') ->
  (t = EmptyString \/ exists r, t = String "_" r) ->
  (t' = EmptyString \/ exists r, t' = String "_" r) ->
  (k ++ t = k' ++ t')%string -> k = k'.
Proof.
  revert k'. induction k as [|c k IH]; intros k' Hk Hk' Ht Ht' E.
  - destruct k' as [|c' k']; [reflexivity|]. simpl in E.
    destruct Ht as [->|[r ->]]; [discriminate|].
    injection E as <- _. exfalso. apply Hk'. now left.
  - destruct k' as [|c' k']; simpl in E.
    + destruct Ht' as [->|[r ->]]; [discriminate|].
      injection E as -> _. exfalso. apply Hk. now left.
    + injection E as <- E. f_equal.
      apply IH; auto.
      * intros H. apply Hk. now right.
      * intros H. apply Hk'. now right.
Qed.

End TextFacts.
Import TextFacts.

(** ** The shape of the leaf entries *)

Module LeafFacts.

Lemma leaf_entries_object fields parent_key sep :
  leaf_entries (JObj fields) parent_key sep
  = flat_map
      (fun kv => leaf_entries (snd kv) (new_key parent_key sep (fst kv)) sep)
      fields.
Proof.
  simpl. induction fields as [|kv r IH]; simpl; [reflexivity|].
  now rewrite IH.
Qed.

Lemma leaf_entries_array elems parent_key sep :
  leaf_entries (JArr elems) parent_key sep
  = flat_map
      (fun kv => leaf_entries (snd kv) (new_key parent_key sep (fst kv)) sep)
      (numbered 0 elems).
Proof.
  simpl. unfold numbered. generalize 0.
  induction elems as [|x r IH]; intros i; simpl; [reflexivity|].
  now rewrite IH.
Qed.

Lemma keys_numbered i elems :
  keys (numbered i elems) = map str_of_nat (seq i (List.length elems)).
Proof.
  unfold numbered, keys. revert i.
  induction elems as [|x r IH]; intros i; simpl; [reflexivity|].
  now rewrite IH.
Qed.

Lemma NoDup_map_injective {A B} (f : A -> B) l :
  (forall a b, f a = f b -> a = b) -> NoDup l -> NoDup (map f l).
Proof.
  intros Hf. induction 1 as [|x l Hx _ IH]; simpl; constructor; [|exact IH].
  intros H. apply in_map_iff in H. destruct H as [y [E Hy]].
  apply Hf in E. now subst.
Qed.

Lemma NoDup_keys_numbered i elems : NoDup (keys (numbered i elems)).
Proof.
  rewrite keys_numbered. apply NoDup_map_injective.
  - intros a b. apply str_of_nat_injective.
  - apply seq_NoDup.
Qed.

Lemma numbered_values i elems : map snd (numbered i elems) = elems.
Proof.
  unfold numbered. revert i.
  induction elems as [|x r IH]; intros i; simpl; [reflexivity|].
  now rewrite IH.
Qed.

Lemma plain_keys_array elems :
  plain_keys (JArr elems) <-> Forall plain_keys elems.
Proof.
  simpl. induction elems as [|x r IH]; [split; constructor|].
  rewrite IH. split.
  - intros [H1 H2]. now constructor.
  - intros H. inversion H. now split.
Qed.

Lemma plain_keys_object fields :
  plain_keys (JObj fields) <->
  NoDup (keys fields) /\
  Forall (fun kv => fst kv <> EmptyString /\
                    ~ In "_"%char (list_ascii_of_string (fst kv)) /\
                    plain_keys (snd kv)) fields.
Proof.
  simpl. apply and_iff_compat_l.
  induction fields as [|kv r IH]; [split; constructor|].
  rewrite IH. split.
  - intros [H1 H2]. now constructor.
  - intros H. inversion H. now split.
Qed.

Lemma flat_map_Forall {A B} (P : B -> Prop) (f : A -> list B) l :
  (forall a, In a l -> Forall P (f a)) -> Forall P (flat_map f l).
Proof.
  induction l as [|a l IH]; intros H; simpl; [constructor|].
  apply Forall_app. split; [apply H; now left|].
  apply IH. intros b Hb. apply H. now right.
Qed.

Lemma numbered_In i elems k x : In (k, x) (numbered i elems) -> In x elems.
Proof. unfold numbered. apply in_combine_r. Qed.

Lemma numbered_key i elems k x :
  In (k, x) (numbered i elems) -> exists j, k = str_of_nat j.
Proof.
  unfold numbered. intros H. apply in_combine_l in H.
  apply in_map_iff in H. destruct H as [j [<- _]]. eauto.
Qed.

(** Below a non-empty parent key, a leaf key is the parent key, alone or
    followed by the separator and more. *)
Lemma leaf_keys_below v :
  forall parent_key,
    parent_key <> EmptyString ->
    Forall (fun kv => exists t,
              fst kv = (parent_key ++ t)%string /\
              (t = EmptyString \/ exists r, t = String "_" r))
      (leaf_entries v parent_key "_").
Proof.
  assert (step : forall (pk k : string) (l : list (string * json)),
    pk <> EmptyString ->
    Forall (fun kv => exists t,
              fst kv = (new_key pk "_" k ++ t)%string /\
              (t = EmptyString \/ exists r, t = String "_" r)) l ->
    Forall (fun kv => exists t,
              fst kv = (pk ++ t)%string /\
              (t = EmptyString \/ exists r, t = String "_" r)) l).
  { intros pk k l Hpk. apply Forall_impl. intros kv [t [E _]].
    exists (String "_" (k ++ t)). split; [|right; eauto].
    rewrite E. destruct pk as [|c p]; [congruence|].
    unfold new_key. change ("_" ++ k)%string with (String "_" k).
    rewrite <- append_assoc. reflexivity. }
  assert (nonempty : forall pk k, pk <> EmptyString ->
                                  new_key pk "_" k <> EmptyString).
  { intros [|c p] k H; [congruence | discriminate]. }
  induction v as [| b | n | s | elems IH | fields IH] using json_induction;
    intros pk Hpk;
    try (constructor; [|constructor]; exists EmptyString;
         split; [simpl; now rewrite append_empty | now left]).
  - rewrite leaf_entries_array. apply flat_map_Forall.
    intros [k x] Hin. simpl. apply (step pk k); [exact Hpk|].
    rewrite Forall_forall in IH.
    apply IH; [eapply numbered_In; eauto | now apply nonempty].
  - rewrite leaf_entries_object. apply flat_map_Forall.
    intros [k x] Hin. simpl. apply (step pk k); [exact Hpk|].
    rewrite Forall_forall in IH.
    apply (IH (k, x) Hin). now apply nonempty.
Qed.

End LeafFacts.
Import LeafFacts.

(** ** Documents whose keys never collide *)

Module PlainFacts.

Lemma new_key_not_empty parent_key k :
  k <> EmptyString -> new_key parent_key "_" k <> EmptyString.
Proof. destruct parent_key as [|c p]; [auto | discriminate]. Qed.

Lemma new_key_cancel parent_key k k' t t' :
  (new_key parent_key "_" k ++ t = new_key parent_key "_" k' ++ t')%string ->
  (k ++ t = k' ++ t')%string.
Proof.
  destruct parent_key as [|c p]; [auto|]. unfold new_key.
  change ("_" ++ k)%string with (String "_" k).
  change ("_" ++ k')%string with (String "_" k').
  rewrite <- !append_assoc. intros H. apply append_cancel in H.
  simpl in H. now injection H.
Qed.

Lemma keys_flat_map {A} (f : A -> list (string * json)) l key :
  In key (keys (flat_map f l)) -> exists a, In a l /\ In key (keys (f a)).
Proof.
  unfold keys. intros H. apply in_map_iff in H.
  destruct H as [kv [E H]]. apply in_flat_map in H.
  destruct H as [a [Ha Hkv]]. exists a. split; [exact Ha|].
  rewrite <- E. now apply in_map.
Qed.

(** Fields with distinct plain keys put their leaves under distinct
    keys. *)
Lemma fields_apart parent_key (parts : list (string * json)) :
  NoDup (keys parts) ->
  (forall k x, In (k, x) parts ->
     k <> EmptyString /\ ~ In "_"%char (list_ascii_of_string k) /\
     NoDup (keys (leaf_entries x (new_key parent_key "_" k) "_"))) ->
  NoDup
    (keys
       (flat_map
          (fun kv => leaf_entries (snd kv) (new_key parent_key "_" (fst kv)) "_")
          parts)).
Proof.
  induction parts as [|[k x] r IH]; intros Hnd H; simpl; [constructor|].
  inversion Hnd as [|? ? Hk Hr]; subst.
  destruct (H k x (or_introl eq_refl)) as [Hne [Hus Hx]].
  unfold keys at 1. rewrite map_app. apply NoDup_app.
  - exact Hx.
  - apply IH; [exact Hr|]. intros k' x' Hin. apply H. now right.
  - intros key Hin Hin'.
    apply keys_flat_map in Hin'. destruct Hin' as [[k' x'] [Hr' Hkey']].
    simpl in Hkey'.
    destruct (H k' x' (or_intror Hr')) as [Hne' [Hus' _]].
    pose proof (leaf_keys_below x (new_key parent_key "_" k)
                  (new_key_not_empty parent_key k Hne)) as S.
    pose proof (leaf_keys_below x' (new_key parent_key "_" k')
                  (new_key_not_empty parent_key k' Hne')) as S'.
    rewrite Forall_forall in S, S'.
    apply in_map_iff in Hin. destruct Hin as [kv [E Hkv]].
    apply in_map_iff in Hkey'. destruct Hkey' as [kv' [E' Hkv']].
    destruct (S kv Hkv) as [t [Et Ht]].
    destruct (S' kv' Hkv') as [t' [Et' Ht']].
    assert (Ek : k = k').
    { apply (key_before_separator k k' t t' Hus Hus' Ht Ht').
      apply (new_key_cancel parent_key). congruence. }
    subst k'. apply Hk. change k with (fst (k, x')). now apply in_map.
Qed.

(** In a document with plain keys no two leaves share a flattened key. *)
Lemma leaf_keys_NoDup v :
  forall parent_key,
    plain_keys v -> NoDup (keys (leaf_entries v parent_key "_")).
Proof.
  induction v as [| b | n | s | elems IH | fields IH] using json_induction;
    intros pk Hv; try (constructor; [simpl; tauto | constructor]).
  - rewrite leaf_entries_array. apply fields_apart.
    + apply NoDup_keys_numbered.
    + intros k x Hin. destruct (numbered_key _ _ _ _ Hin) as [j ->].
      split; [apply str_of_nat_not_empty|].
      split; [apply str_of_nat_no_underscore|].
      apply plain_keys_array in Hv. rewrite Forall_forall in IH, Hv.
      pose proof (numbered_In _ _ _ _ Hin) as Hx. apply IH; auto.
  - rewrite leaf_entries_object. apply plain_keys_object in Hv.
    destruct Hv as [Hnd Hf]. apply fields_apart; [exact Hnd|].
    intros k x Hin. rewrite Forall_forall in IH, Hf.
    destruct (Hf (k, x) Hin) as [Hne [Hus Hx]].
    split; [exact Hne|]. split; [exact Hus|].
    apply (IH (k, x) Hin). exact Hx.
Qed.

End PlainFacts.
Import PlainFacts.

(** ** Properties of the flattener *)

Module FlattenerProperties.

Import MemStore.

Lemma keys_setitem {V} (d : dict V) k v :
  keys (setitem d k v)
  = if existsb (String.eqb k) (keys d) then keys d else keys d ++ [k].
Proof.
  induction d as [|[k0 v0] d IH]; simpl; [reflexivity|].
  rewrite (String.eqb_sym k k0).
  destruct (String.eqb k0 k); simpl; [reflexivity|].
  rewrite IH. now destruct (existsb (String.eqb k) (keys d)).
Qed.

Lemma keys_update {V} (l d : dict V) :
  keys (update d l) = keys d ++ first_seen (filter (unseen (keys d)) (keys l)).
Proof.
  rewrite <- add_keys. revert d.
  induction l as [|[k v] l IH]; intros d; simpl; [reflexivity|].
  change (keys (update (setitem d k v) l) =
          fold_left
            (fun cols k => if existsb (String.eqb k) cols then cols
                           else cols ++ [k])
            (keys l)
            (if existsb (String.eqb k) (keys d) then keys d else keys d ++ [k])).
  now rewrite IH, keys_setitem.
Qed.

Lemma first_seen_NoDup_same l : NoDup l -> first_seen l = l.
Proof.
  induction 1 as [|x l Hx _ IH]; simpl; [reflexivity|].
  rewrite IH. f_equal. apply forallb_filter_id. apply forallb_forall.
  intros y Hy. apply negb_true_iff.
  destruct (String.eqb_spec y x); [congruence | reflexivity].
Qed.

Lemma update_empty {V} (l d : dict V) : update d l = [] -> d = [] /\ l = [].
Proof.
  revert d. induction l as [|[k v] l IH]; intros d H; simpl in H; [auto|].
  change (update (setitem d k v) l = []) in H.
  apply IH in H. destruct H as [H _].
  destruct d as [|[k0 v0] d]; simpl in H; [discriminate|].
  destruct (String.eqb k0 k); discriminate.
Qed.

(** X1. A document in which no object has a key twice and every key is
    non-empty and free of the underscore is flattened without loss: the
    result holds every scalar leaf, in traversal order, each under its own
    key. *)
Theorem flatten_without_loss :
  forall {store} (v : json) (st : state store),
    plain_keys v ->
    flatten_json_string (Some (Text v)) "_" st
    = (Returned (Some (leaf_entries v "" "_")), st) /\
    List.length (leaf_entries v "" "_") = count_leaves v /\
    NoDup (keys (leaf_entries v "" "_")).
Proof.
  intros store v st Hv.
  pose proof (leaf_keys_NoDup v "" Hv) as Hnd.
  split; [|split; [apply length_leaf_entries | exact Hnd]].
  rewrite flatten_json_string_runs, flatten_leaf_entries.
  now rewrite (update_disjoint (leaf_entries v "" "_") []).
Qed.

Lemma flatten_without_loss_witness :
  flatten_json_string
    (Some (Text (JObj [("name", JObj [("first", JStr "Ann");
                                      ("last", JStr "Lee")]);
                       ("tags", JArr [JStr "a"; JObj [("id", JNum 7)]])])))
    "_" (fresh [])
  = (Returned
       (Some
          (leaf_entries
             (JObj [("name", JObj [("first", JStr "Ann");
                                   ("last", JStr "Lee")]);
                    ("tags", JArr [JStr "a"; JObj [("id", JNum 7)]])])
             "" "_")), fresh []) /\
  List.length
    (leaf_entries
       (JObj [("name", JObj [("first", JStr "Ann"); ("last", JStr "Lee")]);
              ("tags", JArr [JStr "a"; JObj [("id", JNum 7)]])]) "" "_")
  = count_leaves
      (JObj [("name", JObj [("first", JStr "Ann"); ("last", JStr "Lee")]);
             ("tags", JArr [JStr "a"; JObj [("id", JNum 7)]])]) /\
  NoDup
    (keys
       (leaf_entries
          (JObj [("name", JObj [("first", JStr "Ann"); ("last", JStr "Lee")]);
                 ("tags", JArr [JStr "a"; JObj [("id", JNum 7)]])]) "" "_")).
Proof.
  apply flatten_without_loss.
  simpl. repeat split;
    try (repeat constructor; simpl; intuition discriminate);
    try discriminate; simpl; intuition discriminate.
Defined.

(** X2. Every key the flattener returns starts with the parent key it
    was called with: a sub-document only ever extends the key of its
    parent. *)
Theorem flatten_keys_extend_parent :
  forall (v : json) (parent_key sep : string),
    Forall (fun k => String.prefix parent_key k = true)
      (keys (_flatten v parent_key sep)).
Proof.
  intros v pk sep. apply Forall_forall. intros k Hk.
  rewrite flatten_leaf_entries in Hk.
  apply keys_update_In in Hk. destruct Hk as [[]|Hk].
  revert pk k Hk.
  induction v as [| b | n | s | elems IH | fields IH] using json_induction;
    intros pk k Hk;
    try (simpl in Hk; destruct Hk as [<-|[]]; apply prefix_refl).
  - rewrite leaf_entries_array in Hk. apply keys_flat_map in Hk.
    destruct Hk as [[j x] [Hin Hk]]. simpl in Hk.
    rewrite Forall_forall in IH.
    apply prefix_trans with (b := new_key pk sep j);
      [apply prefix_new_key|].
    apply (IH x); [eapply numbered_In; eauto | exact Hk].
  - rewrite leaf_entries_object in Hk. apply keys_flat_map in Hk.
    destruct Hk as [[j x] [Hin Hk]]. simpl in Hk.
    rewrite Forall_forall in IH.
    apply prefix_trans with (b := new_key pk sep j);
      [apply prefix_new_key|].
    apply (IH (j, x) Hin). exact Hk.
Qed.

(** X3. The flattener returns the empty mapping exactly for documents
    without a scalar leaf: empty objects and arrays, however nested,
    leave no entry. *)
Theorem flatten_empty_iff_no_leaves :
  forall (v : json) (parent_key sep : string),
    _flatten v parent_key sep = [] <-> count_leaves v = 0.
Proof.
  intros v pk sep.
  rewrite flatten_leaf_entries, <- (length_leaf_entries v pk sep). split.
  - intros H. apply update_empty in H. destruct H as [_ ->]. reflexivity.
  - intros H. apply length_zero_iff_nil in H. now rewrite H.
Qed.

(** X4. The keys of the flattened record are the keys of the leaves in
    the order in which traversal first meets them, and every entry is a
    leaf of the document with its own value. *)
Theorem flatten_keys_in_traversal_order :
  forall (v : json) (parent_key sep : string),
    keys (_flatten v parent_key sep)
    = first_seen (keys (leaf_entries v parent_key sep)) /\
    incl (_flatten v parent_key sep) (leaf_entries v parent_key sep).
Proof.
  intros v pk sep. rewrite flatten_leaf_entries. split.
  - rewrite keys_update. simpl. f_equal.
    apply forallb_filter_id. apply forallb_forall. reflexivity.
  - intros kv H. apply In_update in H. destruct H as [[]|H]. exact H.
Qed.

(** X5. Flattening is idempotent: the flattened record, read as an
    object and flattened again with any separator, comes back
    unchanged. *)
Theorem flatten_is_idempotent :
  forall {store} (v : json) (sep sep' : string) (st : state store),
    flatten_json_string (Some (Text (JObj (_flatten v "" sep)))) sep' st
    = (Returned (Some (_flatten v "" sep)), st).
Proof.
  intros store v sep sep' st.
  rewrite flatten_json_string_runs, (flatten_leaf_entries (JObj _)).
  rewrite leaf_entries_flat by apply flatten_scalar.
  rewrite (update_disjoint (_flatten v "" sep) []) by apply flatten_NoDup.
  reflexivity.
Qed.

(** X6. A field under the empty key at the root is flattened as if its
    content stood at the root: the empty parent key is taken for no
    parent at all, so no separator is put in front. *)
Theorem flatten_empty_key_is_transparent :
  forall (v : json) (sep : string),
    _flatten (JObj [("", v)]) "" sep = _flatten v "" sep.
Proof.
  intros v sep. simpl.
  change (new_key "" sep "") with "".
  rewrite flatten_leaf_entries. apply update_of_entries.
Qed.

(** X7. An array of scalars is flattened to one entry per element, in
    order, keyed by the parent key joined with the element's index. *)
Theorem flatten_array_of_scalars :
  forall (elems : list json) (parent_key sep : string),
    Forall (fun x => is_scalar x = true) elems ->
    _flatten (JArr elems) parent_key sep
    = combine
        (map (fun i => new_key parent_key sep (str_of_nat i))
           (seq 0 (List.length elems)))
        elems.
Proof.
  intros elems pk sep Hs.
  rewrite flatten_leaf_entries.
  assert (E : forall i,
    (fix go (l : list json) (i : nat) : list (string * json) :=
       match l with
       | [] => []
       | x :: r =>
           leaf_entries x (new_key pk sep (str_of_nat i)) sep ++ go r (S i)
       end) elems i
    = combine
        (map (fun i => new_key pk sep (str_of_nat i))
           (seq i (List.length elems))) elems).
  { induction Hs as [|x r Hx _ IH]; intros i; [reflexivity|].
    rewrite IH. simpl. destruct x; try discriminate; reflexivity. }
  simpl. rewrite E. apply update_disjoint. simpl.
  assert (K : keys
                (combine
                   (map (fun i => new_key pk sep (str_of_nat i))
                      (seq 0 (List.length elems))) elems)
              = map (fun i => new_key pk sep (str_of_nat i))
                  (seq 0 (List.length elems))).
  { unfold keys. generalize 0.
    clear. induction elems as [|x r IH]; intros i; simpl; [reflexivity|].
    now rewrite IH. }
  rewrite K. apply NoDup_map_injective; [|apply seq_NoDup].
  intros a b H. apply str_of_nat_injective.
  destruct pk as [|c p]; [exact H|].
  unfold new_key in H. apply append_cancel in H. now apply append_cancel in H.
Qed.

Lemma flatten_array_of_scalars_witness :
  _flatten (JArr [JNum 2; JStr "b"; JNull]) "a_c" "_"
  = combine
      (map (fun i => new_key "a_c" "_" (str_of_nat i)) (seq 0 3))
      [JNum 2; JStr "b"; JNull].
Proof.
  apply (flatten_array_of_scalars [JNum 2; JStr "b"; JNull] "a_c" "_").
  repeat constructor.
Defined.

End FlattenerProperties.

(** ** Properties of the assembler *)

Module AssemblerProperties.

Import MemStore.

Lemma row_of_own_keys (d : dict json) :
  NoDup (keys d) -> row_of (keys d) d = map (fun kv => Filled (snd kv)) d.
Proof.
  unfold row_of. induction d as [|[k v] r IH]; intros H; [reflexivity|].
  inversion H as [|? ? Hk Hr]; subst. simpl.
  rewrite String.eqb_refl. f_equal. rewrite <- (IH Hr).
  apply map_ext_in. intros c Hc.
  destruct (String.eqb_spec k c) as [->|_]; [contradiction | reflexivity].
Qed.

(** The frame of a single record is the record itself. *)
Lemma DataFrame_single (d : dict json) :
  NoDup (keys d) ->
  DataFrame [d]
  = {| columns := keys d; rows := [map (fun kv => Filled (snd kv)) d] |}.
Proof.
  intros H. unfold DataFrame. simpl.
  assert (C : add_columns [] d = keys d).
  { unfold add_columns. rewrite add_keys. simpl.
    rewrite <- (FlattenerProperties.first_seen_NoDup_same (keys d) H) at 2.
    f_equal. apply forallb_filter_id. apply forallb_forall. reflexivity. }
  rewrite C, row_of_own_keys by exact H. reflexivity.
Qed.

Lemma DataFrame_same_key (l : list json) :
  DataFrame (map (fun x => [("", x)]) l)
  = {| columns := match l with [] => [] | _ => [""] end;
       rows := map (fun x => [Filled x]) l |}.
Proof.
  unfold DataFrame.
  assert (C : forall l', fold_left add_columns
                           (map (fun x : json => [("", x)]) l') [""] = [""]).
  { induction l' as [|x l' IH]; simpl; [reflexivity | exact IH]. }
  destruct l as [|x l]; [reflexivity|].
  simpl. change (add_columns [] [("", x)]) with [""].
  rewrite C. f_equal. f_equal. rewrite map_map. reflexivity.
Qed.

Section WithCollaborators.
Context {store parquet : Type} {minio : Collaborators store parquet}.

(** X8. For an object whose [results] array is not empty the frame has
    one row, made from the first element alone: its columns are the
    flattened keys of that element and its row their values. The other
    elements and the other fields of the object are not looked at. *)
Theorem assemble_results_first_only :
  forall (fields : list (string * json)) (first : json) (others : list json)
         (st : state store),
    getitem fields "results" = Some (JArr (first :: others)) ->
    assemble (Some (Text (JObj fields))) st
    = (Returned {| columns := keys (_flatten first "" "_");
                   rows := [map (fun kv => Filled (snd kv))
                              (_flatten first "" "_")] |}, st).
Proof.
  intros fields first others st H.
  rewrite assemble_object. unfold results_first. rewrite H.
  now rewrite DataFrame_single by apply flatten_NoDup.
Qed.

(** X9. Assembling an array gives a frame with exactly one row per
    element, also for elements that flatten to nothing, and every row has
    one cell per column. *)
Theorem frame_has_a_row_per_record :
  forall (records : list json) (st : state store),
  exists df,
    assemble (Some (Text (JArr records))) st = (Returned df, st) /\
    List.length (rows df) = List.length records /\
    Forall (fun row => List.length row = List.length (columns df)) (rows df).
Proof.
  intros records st. eexists. split; [apply assemble_array|]. split.
  - unfold DataFrame. simpl. now rewrite !length_map.
  - unfold DataFrame. simpl. apply Forall_forall. intros row H.
    apply in_map_iff in H. destruct H as [d [<- _]].
    unfold row_of. now rewrite length_map.
Qed.

(** X11. A document that is Null, a Bool or a Number cannot be iterated:
    the type error is caught and printed and the store is left as it
    was. *)
Theorem scalar_document_is_rejected :
  forall (v : json) (bucket_name object_name : string) (st : state store),
    is_scalar v = true ->
    (forall s, v <> JStr s) ->
    json_string_to_parquet_minio (Some (Text v)) bucket_name object_name st
    = (Returned tt, logged st [ErrorConverting TypeError]).
Proof.
  intros v b o st Hs Hn.
  apply json_string_to_parquet_minio_raised.
  destruct v; try discriminate; try reflexivity.
  exfalso. now apply (Hn s).
Qed.

(** X12. A document that is a String is iterated character by character:
    the frame has one row per character under the single column named by
    the empty key, and no column at all for the empty String. *)
Theorem string_document_gives_a_row_per_character :
  forall (s : string) (st : state store),
    assemble (Some (Text (JStr s))) st
    = (Returned
         {| columns := match s with EmptyString => [] | _ => [""] end;
            rows := map (fun c => [Filled (JStr (String c EmptyString))])
                      (list_ascii_of_string s) |}, st).
Proof.
  intros s st. unfold assemble, bind. simpl.
  rewrite flatten_records_runs. simpl. rewrite map_map. simpl.
  rewrite <- (map_map (fun c => JStr (String c EmptyString))
                (fun x => [("", x)])).
  rewrite DataFrame_same_key, map_map.
  destruct s; reflexivity.
Qed.

End WithCollaborators.

Lemma assemble_results_first_only_witness :
  assemble
    (Some (Text (JObj [("info", JObj [("page", JNum 1)]);
                       ("results", JArr [JObj [("x", JNum 1)];
                                         JObj [("x", JNum 2)]])])))
    (fresh [])
  = (Returned
       {| columns := keys (_flatten (JObj [("x", JNum 1)]) "" "_");
          rows := [map (fun kv => Filled (snd kv))
                     (_flatten (JObj [("x", JNum 1)]) "" "_")] |},
     fresh []).
Proof.
  apply (assemble_results_first_only
           [("info", JObj [("page", JNum 1)]);
            ("results", JArr [JObj [("x", JNum 1)]; JObj [("x", JNum 2)]])]
           (JObj [("x", JNum 1)]) [JObj [("x", JNum 2)]]).
  reflexivity.
Defined.

Lemma scalar_document_is_rejected_witness :
  json_string_to_parquet_minio (minio := mem) (Some (Text (JNum 5)))
    "processed" "x.parquet" (fresh [])
  = (Returned tt, logged (fresh []) [ErrorConverting TypeError]).
Proof.
  apply (scalar_document_is_rejected (minio := mem)).
  - reflexivity.
  - intros s. discriminate.
Defined.

End AssemblerProperties.

(** ** Properties of the upload *)

Module UploadProperties.

Import MemStore.

Section WithCollaborators.
Context {store parquet : Type} {minio : Collaborators store parquet}.

(** X13. When the encoder and the store calls succeed, converting an
    array writes the encoded frame of its flattened elements under the
    given name and prints the upload line; the bucket is created first
    only when [bucket_exists] answers that it is absent. *)
Theorem convert_array_uploads :
  forall (records : list json) (bucket_name object_name : string)
         (st : state store) (out_buffer : parquet) (present : bool)
         (st1 st2 : store),
    write_table (DataFrame (map (fun r => _flatten r "" "_") records))
    = Returned out_buffer ->
    bucket_exists bucket_name (st_store st) = Returned present ->
    (if present then Returned (st_store st)
     else make_bucket bucket_name (st_store st)) = Returned st1 ->
    put_object bucket_name object_name out_buffer st1 = Returned st2 ->
    json_string_to_parquet_minio (Some (Text (JArr records)))
      bucket_name object_name st
    = (Returned tt,
       {| st_store := st2;
          st_log := st_log st ++ [Uploaded bucket_name object_name] |}).
Proof.
  intros records b o st buf present st1 st2 Hw Hb Hm Hp.
  unfold json_string_to_parquet_minio, try_except, bind.
  rewrite assemble_array. unfold upload, bind, lift, reading, writing.
  rewrite Hw, Hb. destruct present.
  - injection Hm as <-. simpl. rewrite Hp. reflexivity.
  - rewrite Hm. simpl. rewrite Hp. reflexivity.
Qed.

(** X14. When [put_object] fails, the error is caught and printed and
    the call returns normally; a bucket that was created for the upload
    stays in the store. *)
Theorem failed_put_keeps_the_created_bucket :
  forall (records : list json) (bucket_name object_name : string)
         (st : state store) (out_buffer : parquet) (present : bool)
         (st1 : store) (e : exn),
    write_table (DataFrame (map (fun r => _flatten r "" "_") records))
    = Returned out_buffer ->
    bucket_exists bucket_name (st_store st) = Returned present ->
    (if present then Returned (st_store st)
     else make_bucket bucket_name (st_store st)) = Returned st1 ->
    put_object bucket_name object_name out_buffer st1 = Raised e ->
    json_string_to_parquet_minio (Some (Text (JArr records)))
      bucket_name object_name st
    = (Returned tt,
       {| st_store := st1; st_log := st_log st ++ [ErrorConverting e] |}).
Proof.
  intros records b o st buf present st1 e Hw Hb Hm Hp.
  unfold json_string_to_parquet_minio, try_except, bind.
  rewrite assemble_array. unfold upload, bind, lift, reading, writing.
  rewrite Hw, Hb. destruct present.
  - injection Hm as <-. simpl. rewrite Hp. reflexivity.
  - rewrite Hm. simpl. rewrite Hp. reflexivity.
Qed.

(** X15. A failure of the encoder, of [bucket_exists] or of
    [make_bucket] is caught and printed, and the store is left as it
    was. *)
Theorem failure_before_put_leaves_the_store :
  forall (records : list json) (bucket_name object_name : string)
         (st : state store) (e : exn),
    write_table (DataFrame (map (fun r => _flatten r "" "_") records))
    = Raised e
    \/ (exists out_buffer,
          write_table (DataFrame (map (fun r => _flatten r "" "_") records))
          = Returned out_buffer /\
          (bucket_exists bucket_name (st_store st) = Raised e \/
           (bucket_exists bucket_name (st_store st) = Returned false /\
            make_bucket bucket_name (st_store st) = Raised e))) ->
    json_string_to_parquet_minio (Some (Text (JArr records)))
      bucket_name object_name st
    = (Returned tt, logged st [ErrorConverting e]).
Proof.
  intros records b o st e H.
  unfold json_string_to_parquet_minio, try_except, bind.
  rewrite assemble_array. unfold upload, bind, lift, reading, writing.
  destruct H as [Hw|[buf [Hw [Hb|[Hb Hm]]]]]; rewrite Hw.
  - reflexivity.
  - rewrite Hb. reflexivity.
  - rewrite Hb, Hm. reflexivity.
Qed.

(** X22. The upload inside [json_string_to_parquet_minio] and the
    service [write_parquet_to_minio] do the same to the store and fail in
    the same cases with the same exception; each prints its line exactly
    when it returns normally. The service has no handler, so its
    exception reaches the caller. *)
Theorem upload_agrees_with_the_service :
  forall (df : frame) (out_buffer : parquet)
         (bucket_name object_name : string) (st : state store),
    write_table df = Returned out_buffer ->
    fst (upload df bucket_name object_name st)
    = fst (fst (Service.write_parquet_to_minio out_buffer bucket_name
                  object_name (st_store st) [])) /\
    st_store (snd (upload df bucket_name object_name st))
    = snd (fst (Service.write_parquet_to_minio out_buffer bucket_name
                  object_name (st_store st) [])) /\
    snd (Service.write_parquet_to_minio out_buffer bucket_name object_name
           (st_store st) [])
    = match
        fst (fst (Service.write_parquet_to_minio out_buffer bucket_name
                    object_name (st_store st) []))
      with
      | Returned _ => [Service.AggregatedUploaded bucket_name object_name]
      | Raised _ => []
      end /\
    st_log (snd (upload df bucket_name object_name st))
    = match fst (upload df bucket_name object_name st) with
      | Returned _ => st_log st ++ [Uploaded bucket_name object_name]
      | Raised _ => st_log st
      end.
Proof.
  intros df buf b o st Hw.
  unfold Service.write_parquet_to_minio, upload, bind, lift, reading, writing.
  rewrite Hw.
  destruct (bucket_exists b (st_store st)) as [[|]|e]; simpl.
  - destruct (put_object b o buf (st_store st)); simpl; repeat split.
  - destruct (make_bucket b (st_store st)) as [st1|e]; simpl;
      [|repeat split].
    destruct (put_object b o buf st1); simpl; repeat split.
  - repeat split.
Qed.

End WithCollaborators.

Lemma convert_array_uploads_witness :
  json_string_to_parquet_minio (minio := mem)
    (Some (Text (JArr [JObj [("x", JNum 1)]]))) "processed" "x.parquet"
    (fresh [])
  = (Returned tt,
     {| st_store :=
          [("processed",
            [("x.parquet",
              Columnar (DataFrame [_flatten (JObj [("x", JNum 1)]) "" "_"]))])];
        st_log := st_log (fresh []) ++ [Uploaded "processed" "x.parquet"] |}).
Proof.
  apply (convert_array_uploads (minio := mem) [JObj [("x", JNum 1)]]
           "processed" "x.parquet" (fresh [])
           (DataFrame [_flatten (JObj [("x", JNum 1)]) "" "_"])
           false [("processed", [])]); reflexivity.
Defined.

Lemma failed_put_keeps_the_created_bucket_witness :
  json_string_to_parquet_minio (minio := FaultyStore.deny_put)
    (Some (Text (JArr [JObj [("x", JNum 1)]]))) "processed" "x.parquet"
    (fresh [])
  = (Returned tt,
     {| st_store := [("processed", [])];
        st_log := st_log (fresh [])
                  ++ [ErrorConverting (LibraryError "AccessDenied")] |}).
Proof.
  apply (failed_put_keeps_the_created_bucket (minio := FaultyStore.deny_put)
           [JObj [("x", JNum 1)]] "processed" "x.parquet" (fresh [])
           (DataFrame [_flatten (JObj [("x", JNum 1)]) "" "_"])
           false [("processed", [])]); reflexivity.
Defined.

Lemma failure_before_put_leaves_the_store_witness :
  json_string_to_parquet_minio (minio := FaultyStore.no_encoder)
    (Some (Text (JArr [JObj [("x", JNum 1)]]))) "processed" "x.parquet"
    (fresh [])
  = (Returned tt,
     logged (fresh []) [ErrorConverting (LibraryError "ArrowInvalid")]).
Proof.
  apply (failure_before_put_leaves_the_store (minio := FaultyStore.no_encoder)).
  left. reflexivity.
Defined.

Lemma upload_agrees_with_the_service_witness :
  fst (upload (minio := mem) {| columns := ["x"]; rows := [[Filled (JNum 1)]] |}
         "processed" "x.parquet" (fresh []))
  = fst (fst (Service.write_parquet_to_minio (minio := mem)
                {| columns := ["x"]; rows := [[Filled (JNum 1)]] |}
                "processed" "x.parquet" (st_store (fresh [])) [])) /\
  st_store
    (snd (upload (minio := mem) {| columns := ["x"]; rows := [[Filled (JNum 1)]] |}
            "processed" "x.parquet" (fresh [])))
  = snd (fst (Service.write_parquet_to_minio (minio := mem)
                {| columns := ["x"]; rows := [[Filled (JNum 1)]] |}
                "processed" "x.parquet" (st_store (fresh [])) [])) /\
  snd (Service.write_parquet_to_minio (minio := mem)
         {| columns := ["x"]; rows := [[Filled (JNum 1)]] |}
         "processed" "x.parquet" (st_store (fresh [])) [])
  = match
      fst (fst (Service.write_parquet_to_minio (minio := mem)
                  {| columns := ["x"]; rows := [[Filled (JNum 1)]] |}
                  "processed" "x.parquet" (st_store (fresh [])) []))
    with
    | Returned _ => [Service.AggregatedUploaded "processed" "x.parquet"]
    | Raised _ => []
    end /\
  st_log
    (snd (upload (minio := mem) {| columns := ["x"]; rows := [[Filled (JNum 1)]] |}
            "processed" "x.parquet" (fresh [])))
  = match
      fst (upload (minio := mem) {| columns := ["x"]; rows := [[Filled (JNum 1)]] |}
             "processed" "x.parquet" (fresh []))
    with
    | Returned _ => st_log (fresh []) ++ [Uploaded "processed" "x.parquet"]
    | Raised _ => st_log (fresh [])
    end.
Proof.
  apply (upload_agrees_with_the_service (minio := mem)
           {| columns := ["x"]; rows := [[Filled (JNum 1)]] |}
           {| columns := ["x"]; rows := [[Filled (JNum 1)]] |}).
  reflexivity.
Defined.

End UploadProperties.

(** ** Properties of the pipeline *)

Module PipelineProperties.

Import MemStore.

Lemma replace_without_dot s :
  (forall c, In c (list_ascii_of_string s) -> c <> "."%char) ->
  replace ".json" ".parquet" s = s.
Proof.
  unfold replace. induction s as [|c s IH]; intros H; [reflexivity|].
  assert (Hc : c <> "."%char) by (apply H; now left).
  cbn [replace_from String.prefix].
  destruct (ascii_dec "."%char c) as [E|_]; [congruence|].
  rewrite IH; [reflexivity|]. intros c' Hc'. apply H. now right.
Qed.

Lemma file_name_of folder name :
  (forall c, In c (list_ascii_of_string name) -> c <> "/"%char) ->
  last_item (split "/" (folder ++ String "/" name)) = name.
Proof.
  intros H. unfold last_item.
  rewrite split_at_separator, (split_no_slash name H).
  apply last_last.
Qed.

Section WithCollaborators.
Context {store parquet : Type} {minio : Collaborators store parquet}.

(** An object that cannot be read leaves the store as it was. *)
Lemma unreadable_object_keeps_store object_name (st : state store) e :
  get_object source_bucket_name object_name (st_store st) = Raised e ->
  exists st',
    process_object object_name st = (Returned tt, st') /\
    st_store st' = st_store st.
Proof.
  intros H. unfold process_object, bind, print, read_json_from_minio,
    try_except, bind, reading. simpl. rewrite H. simpl.
  eexists. split; reflexivity.
Qed.

Lemma unreadable_objects_keep_store objects :
  forall st : state store,
    (forall n, exists e,
       get_object source_bucket_name n (st_store st) = Raised e) ->
    exists st',
      for_each objects process_object st = (Returned tt, st') /\
      st_store st' = st_store st.
Proof.
  induction objects as [|n objects IH]; intros st H; simpl.
  - exists st. split; reflexivity.
  - unfold bind. destruct (H n) as [e He].
    destruct (unreadable_object_keeps_store n st e He) as [st1 [R S1]].
    rewrite R. destruct (IH st1) as [st2 [R2 S2]].
    + intros m. rewrite S1. apply H.
    + exists st2. split; [exact R2 | congruence].
Qed.

(** X16. An object that cannot be read is reported twice: the read error
    is printed, the conversion is attempted all the same on the missing
    text and prints a type error. The turn ends normally and the store is
    left as it was. *)
Theorem unreadable_object_is_reported_twice :
  forall (object_name : string) (st : state store) (e : exn),
    get_object source_bucket_name object_name (st_store st) = Raised e ->
    process_object object_name st
    = (Returned tt,
       logged st
         [Reading object_name; ErrorReading e;
          Converting object_name (destination_object_name object_name);
          ErrorConverting TypeError; Elapsed]).
Proof.
  intros n st e H. unfold process_object, bind, print, read_json_from_minio,
    try_except, bind, reading. simpl. rewrite H. simpl.
  unfold logged. simpl. rewrite <- !app_assoc. reflexivity.
Qed.

(** X17. An object whose text is not JSON is read, its conversion prints
    the decoding error, and the turn ends normally with the store left as
    it was. *)
Theorem malformed_object_is_skipped :
  forall (object_name raw : string) (st : state store),
    get_object source_bucket_name object_name (st_store st)
    = Returned (Malformed raw) ->
    process_object object_name st
    = (Returned tt,
       logged st
         [Reading object_name;
          Converting object_name (destination_object_name object_name);
          ErrorConverting JSONDecodeError; Elapsed]).
Proof.
  intros n raw st H. unfold process_object, bind, print, read_json_from_minio,
    try_except, bind, reading. simpl. rewrite H. simpl.
  unfold logged. simpl. rewrite <- !app_assoc. reflexivity.
Qed.

(** X18. An object that holds an array, with the destination bucket in
    place and the encoder and the write succeeding, is written under its
    derived name in the bucket [processed], as the encoded frame of its
    flattened elements; the turn prints its four lines. *)
Theorem good_object_is_converted :
  forall (object_name : string) (records : list json) (st : state store)
         (out_buffer : parquet) (st2 : store),
    get_object source_bucket_name object_name (st_store st)
    = Returned (Text (JArr records)) ->
    write_table (DataFrame (map (fun r => _flatten r "" "_") records))
    = Returned out_buffer ->
    bucket_exists destination_bucket_name (st_store st) = Returned true ->
    put_object destination_bucket_name (destination_object_name object_name)
      out_buffer (st_store st) = Returned st2 ->
    process_object object_name st
    = (Returned tt,
       {| st_store := st2;
          st_log :=
            st_log st
            ++ [Reading object_name;
                Converting object_name (destination_object_name object_name);
                Uploaded destination_bucket_name
                  (destination_object_name object_name);
                Elapsed] |}).
Proof.
  intros n records st buf st2 Hg Hw Hb Hp.
  unfold process_object, bind at 1 2 3 4.
  unfold print at 1, read_json_from_minio, try_except, bind at 1, reading.
  cbn [st_store st_log]. rewrite Hg. unfold ret.
  unfold print at 1. cbn [st_store st_log].
  unfold json_string_to_parquet_minio, try_except, bind at 1.
  rewrite assemble_array.
  unfold upload, bind, lift, reading, writing. cbn [st_store st_log].
  rewrite Hw, Hb. unfold ret. cbn [st_store st_log]. rewrite Hp.
  unfold print. cbn [st_store st_log]. rewrite <- !app_assoc. reflexivity.
Qed.

(** X21. When no object of the source bucket can be read, the run
    returns normally and the store is left as it was. *)
Theorem nothing_read_nothing_written :
  forall st : state store,
    (forall n, exists e,
       get_object source_bucket_name n (st_store st) = Raised e) ->
    exists st', main st = (Returned tt, st') /\ st_store st' = st_store st.
Proof.
  intros st H. unfold main, bind.
  rewrite list_objects_in_minio_folder_runs.
  destruct (list_objects source_bucket_name partition_prefix (st_store st))
    as [objects|e].
  - cbn [print].
    match goal with
    | |- context [for_each objects process_object ?s] =>
        destruct (unreadable_objects_keep_store objects s) as [st' [R S']]
    end; [exact H|].
    rewrite R. exists st'. split; [reflexivity | exact S'].
  - simpl. eexists. split; reflexivity.
Qed.

End WithCollaborators.

(** X19. Only the last segment of the source identifier reaches the
    destination: whatever folder the object was listed in, it is written
    directly under the configured partition, so that objects with the
    same file name in different folders get the same destination. *)
Theorem destination_ignores_the_folder :
  forall (folder other_folder name : string),
    (forall c, In c (list_ascii_of_string name) -> c <> "/"%char) ->
    destination_object_name (folder ++ String "/" name)
    = (partition_prefix ++ replace ".json" ".parquet" name)%string /\
    destination_object_name (folder ++ String "/" name)
    = destination_object_name (other_folder ++ String "/" name).
Proof.
  intros folder other name H. unfold destination_object_name.
  now rewrite !file_name_of.
Qed.

Lemma destination_ignores_the_folder_witness :
  destination_object_name
    ("year=2025/month=12/day=19/hour=14/eu" ++ String "/" "person.json")
  = (partition_prefix ++ replace ".json" ".parquet" "person.json")%string /\
  destination_object_name
    ("year=2025/month=12/day=19/hour=14/eu" ++ String "/" "person.json")
  = destination_object_name
      ("year=2025/month=12/day=19/hour=14/us" ++ String "/" "person.json").
Proof.
  apply (destination_ignores_the_folder
           "year=2025/month=12/day=19/hour=14/eu"
           "year=2025/month=12/day=19/hour=14/us" "person.json").
  intros c H. simpl in H. intros ->.
  repeat (destruct H as [H|H]; [discriminate H|]). exact H.
Defined.

(** X20. A file name without a dot keeps its name: the object is
    converted like any other and written under the unchanged name, with
    no Parquet extension added. *)
Theorem name_without_dot_is_kept :
  forall (folder name : string),
    (forall c, In c (list_ascii_of_string name) ->
               c <> "."%char /\ c <> "/"%char) ->
    destination_object_name (folder ++ String "/" name)
    = (partition_prefix ++ name)%string.
Proof.
  intros folder name H. unfold destination_object_name.
  rewrite file_name_of by (intros c Hc; now apply H).
  rewrite replace_without_dot by (intros c Hc; now apply H).
  reflexivity.
Qed.

Lemma name_without_dot_is_kept_witness :
  destination_object_name
    ("year=2025/month=12/day=19/hour=14" ++ String "/" "README")
  = (partition_prefix ++ "README")%string.
Proof.
  apply (name_without_dot_is_kept "year=2025/month=12/day=19/hour=14" "README").
  intros c H. simpl in H.
  split; intros ->; repeat (destruct H as [H|H]; [discriminate H|]); exact H.
Defined.

Lemma unreadable_object_is_reported_twice_witness :
  process_object (minio := mem) "year=2025/month=12/day=19/hour=14/a.json"
    (fresh [])
  = (Returned tt,
     logged (fresh [])
       [Reading "year=2025/month=12/day=19/hour=14/a.json";
        ErrorReading (LibraryError "NoSuchBucket");
        Converting "year=2025/month=12/day=19/hour=14/a.json"
          (destination_object_name "year=2025/month=12/day=19/hour=14/a.json");
        ErrorConverting TypeError; Elapsed]).
Proof.
  apply (unreadable_object_is_reported_twice (minio := mem)). reflexivity.
Defined.

Lemma malformed_object_is_skipped_witness :
  process_object (minio := mem) "a.json"
    (fresh [("raw", [("a.json", Raw (Malformed "{"))])])
  = (Returned tt,
     logged (fresh [("raw", [("a.json", Raw (Malformed "{"))])])
       [Reading "a.json";
        Converting "a.json" (destination_object_name "a.json");
        ErrorConverting JSONDecodeError; Elapsed]).
Proof.
  apply (malformed_object_is_skipped (minio := mem) "a.json" "{").
  reflexivity.
Defined.

Lemma good_object_is_converted_witness :
  process_object (minio := mem) "a.json"
    (fresh [("raw", [("a.json", Raw (Text (JArr [JObj [("x", JNum 1)]])))]);
            ("processed", [])])
  = (Returned tt,
     {| st_store :=
          [("raw", [("a.json", Raw (Text (JArr [JObj [("x", JNum 1)]])))]);
           ("processed",
            [(destination_object_name "a.json",
              Columnar (DataFrame [_flatten (JObj [("x", JNum 1)]) "" "_"]))])];
        st_log :=
          st_log
            (fresh
               [("raw",
                 [("a.json", Raw (Text (JArr [JObj [("x", JNum 1)]])))]);
                ("processed", [])])
          ++ [Reading "a.json";
              Converting "a.json" (destination_object_name "a.json");
              Uploaded destination_bucket_name
                (destination_object_name "a.json");
              Elapsed] |}).
Proof.
  apply (good_object_is_converted (minio := mem) "a.json"
           [JObj [("x", JNum 1)]]
           (fresh [("raw",
                    [("a.json", Raw (Text (JArr [JObj [("x", JNum 1)]])))]);
                   ("processed", [])])
           (DataFrame [_flatten (JObj [("x", JNum 1)]) "" "_"]));
    reflexivity.
Defined.

Lemma nothing_read_nothing_written_witness :
  exists st',
    main (minio := mem)
      (fresh [("raw",
               [("year=2025/month=12/day=19/hour=14/a.json",
                 Columnar {| columns := []; rows := [] |})])])
    = (Returned tt, st') /\
    st_store st'
    = st_store
        (fresh [("raw",
                 [("year=2025/month=12/day=19/hour=14/a.json",
                   Columnar {| columns := []; rows := [] |})])]).
Proof.
  apply (nothing_read_nothing_written (minio := mem)).
  intros n.
  cbv [get_object mem mem_get_object source_bucket_name st_store fresh].
  cbn [getitem]. change (String.eqb "raw" "raw") with true. cbv iota.
  cbn [getitem].
  destruct (String.eqb "year=2025/month=12/day=19/hour=14/a.json" n);
    eexists; reflexivity.
Defined.

End PipelineProperties.

(** ** Texts that do not parse *)

Module ParsingProperties.

(** X23. [flatten_json_string] never raises. It returns [None], after
    printing the error, exactly when the text is missing or is not JSON;
    every text that parses, the text [null] included, gives a mapping and
    prints nothing. *)
Theorem flatten_json_string_none_iff_unparseable :
  forall {store} (json_str : option text) (sep : string) (st : state store),
    (exists v,
       json_str = Some (Text v) /\
       flatten_json_string json_str sep st
       = (Returned (Some (_flatten v "" sep)), st))
    \/
    (exists e,
       json_loads json_str = Raised e /\
       flatten_json_string json_str sep st
       = (Returned None, logged st [ErrorFlattening e])).
Proof.
  intros store json_str sep st. destruct json_str as [[v|raw]|].
  - left. exists v. split; reflexivity.
  - right. exists JSONDecodeError. split; reflexivity.
  - right. exists TypeError. split; reflexivity.
Qed.

End ParsingProperties.
